(** * nestjs-clean-ddd-starter: a shallow embedding of the TypeScript sources

    The repository is a NestJS starter laid out in four layers.  The code
    that runs is the greeting chain

      AppModule -> AppController.getHello -> GetHelloUseCase.execute

    and next to it the repository ships example classes that are not wired
    into [AppModule]: the [User] entity, [BaseEntity], [CreateUserUseCase],
    and, in the usage guide, [Product] and [ProductRepositoryImpl].

    Conventions of the embedding.
    - A JavaScript call either completes normally or throws: [Completion].
    - A promise is represented by the state it settles in: [Promise].
    - A method that may read or write state takes the state and returns the
      new one: [JS W A], with [W] the type of the state it runs on.
    - [number] is IEEE 754 binary64, i.e. Rocq's primitive [float].
    - A [string] stands for the JavaScript string with the same code units;
      the sources only test strings for emptiness, for equality and for an
      occurrence of ['@'], which do not depend on the encoding. *)

From Stdlib Require Import ZArith String Ascii Bool Lia Floats.
From stdpp Require Import base option list strings pretty.

Local Open Scope string_scope.
Local Open Scope list_scope.

(** ** JavaScript control flow *)

(** [new Error(message)]. *)
Inductive JSError : Type :=
| Error (message : string).

(** How a call ends. *)
Inductive Completion (A : Type) : Type :=
| Normal (value : A)
| Throw (reason : JSError).
Arguments Normal {A} value.
Arguments Throw {A} reason.

(** The settled state of a promise. *)
Inductive Promise (A : Type) : Type :=
| Resolved (value : A)
| Rejected (reason : JSError).
Arguments Resolved {A} value.
Arguments Rejected {A} reason.

(** A computation over a state of type [W]. *)
Definition JS (W A : Type) : Type := W -> Completion A * W.

Definition ret {W A} (a : A) : JS W A := fun w => (Normal a, w).

Definition throw {W A} (e : JSError) : JS W A := fun w => (Throw e, w).

Definition bind {W A B} (m : JS W A) (k : A -> JS W B) : JS W B :=
  fun w =>
    match m w with
    | (Normal a, w') => k a w'
    | (Throw e, w') => (Throw e, w')
    end.

Declare Scope js_scope.
Delimit Scope js_scope with js.
Notation "'let*' x ':=' m 'in' k" := (bind m (fun x => k))
  (at level 10, x pattern, m at level 100, k at level 200) : js_scope.
Notation "'do*' m 'in' k" := (bind m (fun _ => k))
  (at level 10, m at level 100, k at level 200) : js_scope.

Definition get {W} : JS W W := fun w => (Normal w, w).

Definition put {W} (w : W) : JS W unit := fun _ => (Normal tt, w).

(** [Promise.resolve(v)] *)
Definition Promise_resolve {A} (v : A) : Promise A := Resolved v.

(** [await p]: the value of a fulfilled promise, or its reason thrown. *)
Definition await {W A} (p : Promise A) : JS W A :=
  match p with
  | Resolved a => ret a
  | Rejected e => throw e
  end.

(** The body [m] of an [async] function: the call itself never throws; what
    the body returns fulfils the promise, what it throws rejects it. *)
Definition async {W A} (m : JS W A) : JS W (Promise A) :=
  fun w =>
    match m w with
    | (Normal a, w') => (Normal (Resolved a), w')
    | (Throw e, w') => (Normal (Rejected e), w')
    end.

(** ** application/interfaces/use-case.interface.ts

    [UseCase<I, O>]: one method [execute(input): Promise<O>]. *)
Module UseCase.
Record t (W I O : Type) : Type := {
  execute : I -> JS W (Promise O)
}.
Arguments execute {W I O} _ _ _.
End UseCase.

(** ** application/use-cases/get-hello.use-case.ts *)
Module GetHelloUseCase.

(** [execute(): Promise<string> { return Promise.resolve('Hello World!'); }] *)
Definition execute {W} (_ : unit) : JS W (Promise string) :=
  ret (Promise_resolve "Hello World!").

Definition instance {W} : UseCase.t W unit string :=
  {| UseCase.execute := execute |}.

End GetHelloUseCase.

(** ** presentation/controllers/app.controller.ts *)

Inductive RequestMethod : Type := GET | POST | PUT | DELETE | PATCH.

Global Instance RequestMethod_eq_dec : EqDecision RequestMethod.
Proof. solve_decision. Defined.

(** What a method decorator such as [@Get(path?)] records about a handler
    that returns [Promise<string>]. *)
Record RouteHandler (W : Type) : Type := {
  route_method : RequestMethod;
  route_path : option string;
  route_handler : JS W (Promise string)
}.
Arguments route_method {W} _.
Arguments route_path {W} _.
Arguments route_handler {W} _.

(** What [@Controller(prefix?)] records about a class. *)
Record ControllerMetadata (W : Type) : Type := {
  controller_prefix : option string;
  controller_routes : list (RouteHandler W)
}.
Arguments controller_prefix {W} _.
Arguments controller_routes {W} _.

Module AppController.

(** [constructor(private readonly getHelloUseCase: GetHelloUseCase) {}] *)
Record t (W : Type) : Type := {
  getHelloUseCase : UseCase.t W unit string
}.
Arguments getHelloUseCase {W} _.

Local Open Scope js_scope.

(** [async getHello(): Promise<string> {
       return await this.getHelloUseCase.execute();
     }] *)
Definition getHello {W} (this : t W) : JS W (Promise string) :=
  async (let* p := UseCase.execute (getHelloUseCase this) tt in
         await p).

(** [@Controller()] on the class, [@Get()] on [getHello]. *)
Definition metadata {W} (this : t W) : ControllerMetadata W :=
  {| controller_prefix := None;
     controller_routes :=
       [ {| route_method := GET;
            route_path := None;
            route_handler := getHello this |} ] |}.

End AppController.

(** ** app.module.ts

    [@Module({ imports: [], controllers: [AppController],
               providers: [GetHelloUseCase] })]

    Nest builds each provider once and passes it to the constructors that
    ask for it; [controllers] below holds the controller so built. *)
#[local] Unset Elimination Schemes.
Inductive ModuleMetadata (W : Type) : Type :=
| Module_ (imports : list (ModuleMetadata W))
          (controllers : list (ControllerMetadata W))
          (providers : list string).
#[local] Set Elimination Schemes.
Arguments Module_ {W} imports controllers providers.

Definition imports {W} (m : ModuleMetadata W) : list (ModuleMetadata W) :=
  match m with Module_ i _ _ => i end.

Definition controllers {W} (m : ModuleMetadata W) : list (ControllerMetadata W) :=
  match m with Module_ _ c _ => c end.

Definition providers {W} (m : ModuleMetadata W) : list string :=
  match m with Module_ _ _ p => p end.

Definition appController {W} : AppController.t W :=
  {| AppController.getHelloUseCase := GetHelloUseCase.instance |}.

Definition AppModule {W} : ModuleMetadata W :=
  Module_ (* imports *) []
          (* controllers *) [ AppController.metadata appController ]
          (* providers *) [ "GetHelloUseCase" ].

(** ** The HTTP surface

    The router is NestJS over Express, a dependency of the repository and
    not code of it.  [handleRequest] below is one step of what they do with
    a request: routing it to a handler and sending what the handler
    returned.  The documented behaviour of that step is written out:
    - a handler is mounted at the controller prefix followed by the method
      path, empty segments dropped, so [@Controller()] with [@Get()] is [/];
    - the step looks at the method and the path of the request;
    - the status of a handled request is 200, and 201 for POST;
    - a string that the handler's promise resolves to is sent as the body;
    - an error that is not an [HttpException] is answered with status 500,
      and a request that no route matches with status 404.

    An [HttpRequest] is a request as Node's HTTP parser hands it over: the
    header names are in lower case and the body is the bytes received.

    What the framework does around this step is not in [handleRequest]: the
    body parsers that run before it (see [handleHttp]), the answer 304 to a
    conditional GET, the HEAD and OPTIONS requests that Express answers
    from a GET route, and the normalisation of paths (GET [//] reaches the
    handler of [/]).  On such requests [handleRequest] alone does not say
    what the application answers. *)

Record HttpRequest : Type := {
  request_method : RequestMethod;
  request_path : string;
  request_query : list (string * string);
  request_headers : list (string * string);
  request_body : string
}.

Inductive ResponseBody : Type :=
| Text (text : string)
| ExceptionJson (statusCode : Z) (error_message : string).

Record HttpResponse : Type := {
  status : Z;
  body : ResponseBody
}.

Definition nonempty_segments (segments : list (option string)) : list string :=
  List.filter (fun seg => negb (String.eqb seg ""))
              (omap (fun seg => seg) segments).

Definition mount_path (prefix path : option string) : string :=
  "/" ++ String.concat "/" (nonempty_segments [prefix; path]).

Definition defaultStatus (m : RequestMethod) : Z :=
  match m with
  | POST => 201
  | _ => 200
  end.

(** The routes of a module: (method, path, handler). *)
Definition controller_table {W} (c : ControllerMetadata W)
  : list (RequestMethod * string * JS W (Promise string)) :=
  List.map (fun r => (route_method r,
                      mount_path (controller_prefix c) (route_path r),
                      route_handler r))
           (controller_routes c).

Fixpoint routes {W} (m : ModuleMetadata W)
  : list (RequestMethod * string * JS W (Promise string)) :=
  match m with
  | Module_ imported own _ =>
      List.concat (List.map routes imported)
      ++ List.concat (List.map controller_table own)
  end.

Definition route_matches {W} (req : HttpRequest)
           (r : RequestMethod * string * JS W (Promise string)) : bool :=
  bool_decide (r.1.1 = request_method req) && String.eqb r.1.2 (request_path req).

Definition handleRequest {W} (m : ModuleMetadata W) (req : HttpRequest)
  : W -> HttpResponse * W :=
  fun w =>
    match List.find (route_matches req) (routes m) with
    | None =>
        ({| status := 404; body := ExceptionJson 404 "Not Found" |}, w)
    | Some r =>
        match r.2 w with
        | (Normal (Resolved s), w') =>
            ({| status := defaultStatus (request_method req);
                body := Text s |}, w')
        | (Normal (Rejected _), w') | (Throw _, w') =>
            ({| status := 500;
                body := ExceptionJson 500 "Internal server error" |}, w')
        end
    end.

(** *** Before the routing step: the JSON body parser

    Nest installs Express's JSON body parser with its defaults.  It reads
    the body of a request that declares one ([content-length]) of type
    [application/json].  An empty body is accepted.  Otherwise the parser
    is strict: the first character of the text that is not SP, TAB, LF or
    CR has to open an object or an array, and a text that fails this is
    answered with status 400 before any route is looked up.  A text that
    passes goes to [JSON.parse], whose verdict is not modelled; neither is
    a text of blanks only, nor the decoding of a text whose first
    character is a byte outside ASCII.

    [handleHttp] puts this stage in front of [handleRequest] for the class
    of GET [/] requests on which nothing else in the framework interferes:
    the headers are among [host], [user-agent], [accept], [content-type]
    and [content-length], each at most once; a content type, if given, is
    [application/json]; without [content-length] there is no body, and with
    it the body has the declared length, at most the parser's limit of
    100 KiB.  Any other request is [NotModelled]. *)

Definition header (name : string) (req : HttpRequest) : option string :=
  option_map snd
    (List.find (fun h => String.eqb (fst h) name) (request_headers req)).

Definition known_headers : list string :=
  [ "host"; "user-agent"; "accept"; "content-type"; "content-length" ].

Fixpoint distinct (names : list string) : bool :=
  match names with
  | [] => true
  | name :: rest => negb (existsb (String.eqb name) rest) && distinct rest
  end.

(** [FIRST_CHAR_REGEXP = /^[\x20\x09\x0a\x0d]*([^\x20\x09\x0a\x0d])/] *)
Definition is_json_space (c : ascii) : bool :=
  let n := nat_of_ascii c in
  (n =? 32)%nat || (n =? 9)%nat || (n =? 10)%nat || (n =? 13)%nat.

Fixpoint firstchar (text : string) : option ascii :=
  match text with
  | EmptyString => None
  | String c rest => if is_json_space c then firstchar rest else Some c
  end.

(** The strict check fails on a first character, in ASCII, that is
    neither ['{'] nor ['[']. *)
Definition strict_violation (text : string) : bool :=
  match firstchar text with
  | Some c =>
      (nat_of_ascii c <? 128)%nat
      && negb (Ascii.eqb c "{" || Ascii.eqb c "[")
  | None => false
  end.

Definition json_limit : Z := 102400.

Definition modelled (req : HttpRequest) : bool :=
  bool_decide (request_method req = GET)
  && String.eqb (request_path req) "/"
  && forallb (fun h => existsb (String.eqb (fst h)) known_headers)
             (request_headers req)
  && distinct (List.map fst (request_headers req))
  && match header "content-type" req with
     | None => true
     | Some type => String.eqb type "application/json"
     end
  && match header "content-length" req with
     | None => String.eqb (request_body req) ""
     | Some n =>
         String.eqb n (pretty (String.length (request_body req)))
         && (Z.of_nat (String.length (request_body req)) <=? json_limit)%Z
     end.

Inductive Answer (W : Type) : Type :=
| Routed (response : HttpResponse) (state : W)
| RejectedByBodyParser (status : Z)
| NotModelled.
Arguments Routed {W} response state.
Arguments RejectedByBodyParser {W} status.
Arguments NotModelled {W}.

Definition answer_status {W} (a : Answer W) : option Z :=
  match a with
  | Routed response _ => Some (status response)
  | RejectedByBodyParser code => Some code
  | NotModelled => None
  end.

Definition handleHttp {W} (m : ModuleMetadata W) (req : HttpRequest)
  : W -> Answer W :=
  fun w =>
    if negb (modelled req) then NotModelled
    else if String.eqb (request_body req) ""
    then let (response, w') := handleRequest m req w in Routed response w'
    else match header "content-type" req with
         | None => NotModelled
         | Some _ =>
             if strict_violation (request_body req)
             then RejectedByBodyParser 400
             else NotModelled
         end.

(** ** Strings and dates *)

(** A [Date] is its time value, in milliseconds since the epoch. *)
Definition Date : Type := Z.

(** [s.includes(search)] *)
Fixpoint includes (s search : string) : bool :=
  String.prefix search s
  || match s with
     | EmptyString => false
     | String _ rest => includes rest search
     end.

(** A string in a condition: the empty string is the falsy one.  The
    fields tested this way are declared [string]. *)
Definition truthy (s : string) : bool := negb (String.eqb s "").

(** [s.substr(start, length)] *)
Definition substr (s : string) (start len : nat) : string :=
  String.substring start len s.

(** The code units below 256 that [trim] strips: the white space TAB, VT,
    FF, SP and NBSP, and the line terminators LF and CR.  (The others, such
    as U+FEFF and U+2028, lie above 255.) *)
Definition isWhiteSpace (c : ascii) : bool :=
  let n := nat_of_ascii c in
  (n =? 9)%nat || (n =? 10)%nat || (n =? 11)%nat || (n =? 12)%nat
  || (n =? 13)%nat || (n =? 32)%nat || (n =? 160)%nat.

Fixpoint trimStart_units (units : list ascii) : list ascii :=
  match units with
  | [] => []
  | c :: rest => if isWhiteSpace c then trimStart_units rest else units
  end.

Definition trimEnd_units (units : list ascii) : list ascii :=
  List.rev (trimStart_units (List.rev units)).

(** [s.trim()] *)
Definition trim (s : string) : string :=
  string_of_list_ascii
    (trimEnd_units (trimStart_units (list_ascii_of_string s))).

(** What the environment answers when [CreateUserUseCase.execute] builds a
    user: [Date.now()], then [Math.random().toString(36)] (the conversion of
    a binary64 fraction to base 36 is left to the environment), then the
    [new Date()] of the constructor's default argument. *)
Record Environment : Type := {
  Date_now : Z;
  Math_random_toString36 : string;
  new_Date : Date
}.

(** ** domain/entities/base.entity.ts *)
Module BaseEntity.

Record t : Type := {
  id : string;
  createdAt : Date;
  updatedAt : Date
}.

(** [public equals(entity: BaseEntity): boolean {
       return this.id === entity.id;
     }] *)
Definition equals (this entity : t) : bool :=
  String.eqb (id this) (id entity).

End BaseEntity.

(** ** domain/entities/user.entity.ts *)
Module User.

Record t : Type := {
  id : string;
  email : string;
  name : string;
  createdAt : Date
}.

(** [constructor(public readonly id: string,
                 public readonly email: string,
                 public readonly name: string,
                 public readonly createdAt: Date = new Date()) {}]

    The body is empty: the four fields are stored as they come.  [now] is
    the instant [new Date()] yields when [createdAt] is left out. *)
Definition new (now : Date) (id email name : string)
           (createdAt : option Date) : Completion t :=
  Normal {| id := id;
            email := email;
            name := name;
            createdAt := default now createdAt |}.

(** [public isValid(): boolean {
       return this.email.includes('@') && this.name.length > 0;
     }] *)
Definition isValid (this : t) : bool :=
  includes (email this) "@" && (0 <? String.length (name this))%nat.

(** [public updateName(newName: string): User {
       if (!newName || newName.trim().length === 0) {
         throw new Error('Name cannot be empty');
       }
       return new User(this.id, this.email, newName, this.createdAt);
     }]

    All four arguments of the constructor are given, so its default
    [new Date()] is not evaluated. *)
Definition updateName (this : t) (newName : string) : Completion t :=
  if negb (truthy newName) || (String.length (trim newName) =? 0)%nat
  then Throw (Error "Name cannot be empty")
  else new (createdAt this) (id this) (email this) newName
           (Some (createdAt this)).

End User.

(** ** domain/repositories/user.repository.ts

    The interface file is not among the sources; the two methods below are
    the ones [CreateUserUseCase] calls, with the signatures the guides give:
    [findByEmail(email: string): Promise<User | null>] and
    [save(user: User): Promise<void>].  [S] is the state of whatever
    implements the interface; either method may reject. *)
Module UserRepository.

Class t (S : Type) : Type := {
  findByEmail : string -> JS S (Promise (option User.t));
  save : User.t -> JS S (Promise unit)
}.

End UserRepository.

(** ** application/use-cases/create-user.use-case.ts *)
Module CreateUserUseCase.

Record CreateUserRequest : Type := {
  email : string;
  name : string
}.

Section Execute.

Context {S : Type}.
(** [constructor(private readonly userRepository: UserRepository) {}] *)
Context (userRepository : UserRepository.t S).
Context (env : Environment).

Local Open Scope js_scope.

(** [private generateId(): string {
       return Date.now().toString()
              + Math.random().toString(36).substr(2, 9);
     }] *)
Definition generateId : string :=
  pretty (Date_now env) ++ substr (Math_random_toString36 env) 2 9.

Definition lift {A} (c : Completion A) : JS S A := fun s => (c, s).

Definition execute (request : CreateUserRequest) : JS S (Promise User.t) :=
  async (
    (* Validate request *)
    if negb (truthy (email request)) || negb (truthy (name request))
    then throw (Error "Email and name are required")
    else
      (* Check if user already exists *)
      let* found := UserRepository.findByEmail (email request) in
      let* existingUser := await found in
      match existingUser with
      | Some _ => throw (Error "User with this email already exists")
      | None =>
        (* Create new user *)
        let* user := lift (User.new (new_Date env) generateId
                                    (email request) (name request) None) in
        (* Validate business rules *)
        if negb (User.isValid user)
        then throw (Error "Invalid user data")
        else
          (* Save user *)
          let* saved := UserRepository.save user in
          do* await saved in
          ret user
      end).

End Execute.

End CreateUserUseCase.

(** *** Observing the repository

    A repository seen through a recorder of the calls made to it, the way
    the guide's test doubles are ([expect(userRepository.save)
    .toHaveBeenCalled()]): every call is appended to the log and handed to
    the repository underneath. *)
Inductive RepositoryCall : Type :=
| CallFindByEmail (email : string)
| CallSave (user : User.t).

Definition is_save (c : RepositoryCall) : bool :=
  match c with
  | CallSave _ => true
  | CallFindByEmail _ => false
  end.

Definition recorded {S A} (c : RepositoryCall) (m : JS S A)
  : JS (S * list RepositoryCall) A :=
  fun '(s, log) =>
    let '(r, s') := m s in (r, (s', log ++ [c])).

Definition spyOn {S} (repo : UserRepository.t S)
  : UserRepository.t (S * list RepositoryCall) :=
  {| UserRepository.findByEmail e :=
       recorded (CallFindByEmail e) (UserRepository.findByEmail e);
     UserRepository.save u :=
       recorded (CallSave u) (UserRepository.save u) |}.

(** An in-memory implementation of the interface, used to run the use case:
    a list of users, looked up by email, appended to by [save]. *)
Definition InMemoryUserRepository : UserRepository.t (list User.t) :=
  {| UserRepository.findByEmail e :=
       async (fun users =>
                (Normal (List.find (fun u => String.eqb (User.email u) e) users),
                 users));
     UserRepository.save u :=
       async (fun users => (Normal tt, users ++ [u])) |}.

(** ** Usage guide: domain/entities/product.entity.ts *)
Module Product.

Record t : Type := {
  id : string;
  name : string;
  price : float;
  category : string
}.

(** Product objects live in a store; a reference is a position in it.
    [new Product(...)] takes the next free position. *)
Abbreviation Heap := (list t).
Abbreviation ref := nat.

(** [constructor(public readonly id: string, public readonly name: string,
                 public readonly price: number,
                 public readonly category: string) {}] *)
Definition new (id name : string) (price : float) (category : string)
  : JS Heap ref :=
  fun heap =>
    (Normal (length heap),
     heap ++ [ {| id := id; name := name; price := price;
                  category := category |} ]).

(** Reading through a reference; a reference held by a program always
    points into the store. *)
Definition deref (r : ref) : JS Heap t :=
  fun heap =>
    match heap !! r with
    | Some p => (Normal p, heap)
    | None => (Throw (Error "TypeError"), heap)
    end.

Local Open Scope js_scope.

(** [public applyDiscount(discountPercent: number): Product {
       if (discountPercent < 0 || discountPercent > 100) {
         throw new Error('Invalid discount percentage');
       }
       const newPrice = this.price * (1 - discountPercent / 100);
       return new Product(this.id, this.name, newPrice, this.category);
     }] *)
Definition applyDiscount (this : ref) (discountPercent : float)
  : JS Heap ref :=
  let* self := deref this in
  if (discountPercent <? 0)%float || (100 <? discountPercent)%float
  then throw (Error "Invalid discount percentage")
  else
    let newPrice := (price self * (1 - discountPercent / 100))%float in
    new (id self) (name self) newPrice (category self).

End Product.

(** ** Usage guide: infrastructure/repositories/product.repository.impl.ts

    The state is the private field [products], which starts as [[]].  The
    fields of a [Product] are readonly, so the array is modelled by the
    values of the objects it refers to. *)

(** [array.findIndex(pred)]: the first index whose element satisfies
    [pred], or -1. *)
Fixpoint findIndex {A} (pred : A -> bool) (l : list A) : Z :=
  match l with
  | [] => -1
  | x :: rest =>
      if pred x then 0
      else let i := findIndex pred rest in
           if (i <? 0)%Z then -1 else (i + 1)%Z
  end.

Module ProductRepositoryImpl.

Abbreviation State := (list Product.t).

(** [private products: Product[] = [];] *)
Definition initial : State := [].

Local Open Scope js_scope.

(** [async findById(id: string): Promise<Product | null> {
       return this.products.find(p => p.id === id) || null;
     }] *)
Definition findById (id : string) : JS State (Promise (option Product.t)) :=
  async (let* products := get in
         ret (List.find (fun p => String.eqb (Product.id p) id) products)).

(** [async findByCategory(category: string): Promise<Product[]> {
       return this.products.filter(p => p.category === category);
     }] *)
Definition findByCategory (category : string)
  : JS State (Promise (list Product.t)) :=
  async (let* products := get in
         ret (List.filter
                (fun p => String.eqb (Product.category p) category)
                products)).

(** [async save(product: Product): Promise<void> {
       const index = this.products.findIndex(p => p.id === product.id);
       if (index >= 0) {
         this.products[index] = product;
       } else {
         this.products.push(product);
       }
     }]

    [index] is a position of the array whenever it is not -1, so the
    assignment replaces an element and never extends the array. *)
Definition save (product : Product.t) : JS State (Promise unit) :=
  async (let* products := get in
         let index :=
           findIndex (fun p => String.eqb (Product.id p) (Product.id product))
                     products in
         if (0 <=? index)%Z
         then put (<[ Z.to_nat index := product ]> products)
         else put (products ++ [product])).

(** [async delete(id: string): Promise<void> {
       this.products = this.products.filter(p => p.id !== id);
     }] *)
Definition delete (id : string) : JS State (Promise unit) :=
  async (let* products := get in
         put (List.filter (fun p => negb (String.eqb (Product.id p) id))
                          products)).

(** The states the repository can be in: the initial one, and those
    reached from it by [save] and [delete] (the two methods that write
    [products]). *)
Inductive reachable : State -> Prop :=
| reachable_initial : reachable initial
| reachable_save s p : reachable s -> reachable (save p s).2
| reachable_delete s id : reachable s -> reachable (delete id s).2.

End ProductRepositoryImpl.

(** ** Usage guide: domain/repositories/product.repository.ts

    [export interface ProductRepository {
       findById(id: string): Promise<Product | null>;
       findByCategory(category: string): Promise<Product[]>;
       save(product: Product): Promise<void>;
       delete(id: string): Promise<void>;
     }] *)
Module ProductRepository.

Class t (S : Type) : Type := {
  findById : string -> JS S (Promise (option Product.t));
  findByCategory : string -> JS S (Promise (list Product.t));
  save : Product.t -> JS S (Promise unit);
  delete : string -> JS S (Promise unit)
}.

End ProductRepository.

(** [class ProductRepositoryImpl implements ProductRepository] *)
Definition productRepositoryImpl : ProductRepository.t (list Product.t) :=
  {| ProductRepository.findById := ProductRepositoryImpl.findById;
     ProductRepository.findByCategory := ProductRepositoryImpl.findByCategory;
     ProductRepository.save := ProductRepositoryImpl.save;
     ProductRepository.delete := ProductRepositoryImpl.delete |}.

(** ** Usage guide: application/use-cases/get-product-by-id.use-case.ts *)
Module GetProductByIdUseCase.

Section Execute.

Context {S : Type}.
(** [constructor(private readonly productRepository: ProductRepository) {}] *)
Context (productRepository : ProductRepository.t S).

Local Open Scope js_scope.

(** [async execute(productId: string): Promise<Product> {
       const product = await this.productRepository.findById(productId);
       if (!product) {
         throw new Error('Product not found');
       }
       return product;
     }] *)
Definition execute (productId : string) : JS S (Promise Product.t) :=
  async (let* found := ProductRepository.findById productId in
         let* product := await found in
         match product with
         | None => throw (Error "Product not found")
         | Some p => ret p
         end).

Definition instance : UseCase.t S string Product.t :=
  {| UseCase.execute := execute |}.

End Execute.

End GetProductByIdUseCase.

(** ** Usage guide: presentation/controllers/product.controller.ts *)
Module ProductController.

(** [constructor(private readonly getProductByIdUseCase:
                   GetProductByIdUseCase) {}] *)
Record t (W : Type) : Type := {
  getProductByIdUseCase : UseCase.t W string Product.t
}.
Arguments getProductByIdUseCase {W} _.

Local Open Scope js_scope.

(** [async getProduct(@Param('id') id: string) {
       return await this.getProductByIdUseCase.execute(id);
     }] *)
Definition getProduct {W} (this : t W) (id : string)
  : JS W (Promise Product.t) :=
  async (let* p := UseCase.execute (getProductByIdUseCase this) id in
         await p).

End ProductController.

(** The controller that [ProductModule] builds: the use case over
    [ProductRepositoryImpl]. *)
Definition productController : ProductController.t (list Product.t) :=
  {| ProductController.getProductByIdUseCase :=
       GetProductByIdUseCase.instance productRepositoryImpl |}.

(** ** Common layer guide: utils

    In the two classes below a [number] argument that counts characters or
    elements is an integer. *)
(** [s.substring(start, end)]: both indices are clamped to the string and
    swapped when [start] is the larger. *)
Definition String_substring (s : string) (start end_ : Z) : string :=
  let len := Z.of_nat (String.length s) in
  let a := Z.min (Z.max start 0) len in
  let b := Z.min (Z.max end_ 0) len in
  String.substring (Z.to_nat (Z.min a b))
                   (Z.to_nat (Z.max a b - Z.min a b)) s.

Module StringUtils.

(** [static truncate(text: string, maxLength: number): string {
       if (text.length <= maxLength) return text;
       return text.substring(0, maxLength - 3) + '...';
     }] *)
Definition truncate (text : string) (maxLength : Z) : string :=
  if (Z.of_nat (String.length text) <=? maxLength)%Z then text
  else String_substring text 0 (maxLength - 3) ++ "...".

End StringUtils.

(** [array.slice(start, end)]: a negative index counts from the end. *)
Definition Array_slice {A} (array : list A) (start end_ : Z) : list A :=
  let len := Z.of_nat (length array) in
  let relative k := if (k <? 0)%Z then Z.max (len + k) 0 else Z.min k len in
  take (Z.to_nat (relative end_ - relative start))
       (drop (Z.to_nat (relative start)) array).

Module ArrayUtils.

(** [static chunk<T>(array: T[], size: number): T[][] {
       const chunks: T[][] = [];
       for (let i = 0; i < array.length; i += size) {
         chunks.push(array.slice(i, i + size));
       }
       return chunks;
     }]

    The loop, from the index [i] and the chunks pushed so far; [fuel]
    bounds the number of iterations, and [None] says they did not suffice. *)
Fixpoint chunk_loop {A} (fuel : nat) (array : list A) (size i : Z)
         (chunks : list (list A)) : option (list (list A)) :=
  if (i <? Z.of_nat (length array))%Z
  then match fuel with
       | O => None
       | S fuel' =>
           chunk_loop fuel' array size (i + size)
                      (chunks ++ [Array_slice array i (i + size)])
       end
  else Some chunks.

Definition chunk {A} (fuel : nat) (array : list A) (size : Z)
  : option (list (list A)) :=
  chunk_loop fuel array size 0 [].

(** [set.add(x)] on a [Set] listed in insertion order.  The elements are
    values on which the equality of [Set] is equality, such as strings. *)
Definition Set_add {A} `{EqDecision A} (set : list A) (x : A) : list A :=
  if decide (x ∈ set) then set else set ++ [x].

(** [static unique<T>(array: T[]): T[] {
       return [...new Set(array)];
     }] *)
Definition unique {A} `{EqDecision A} (array : list A) : list A :=
  foldl Set_add [] array.

End ArrayUtils.

(** * Vocabulary of the properties, and test data *)

(** A request for the endpoint, with whatever else a request carries. *)
Definition get_root (query headers : list (string * string)) (payload : string)
  : HttpRequest :=
  {| request_method := GET; request_path := "/"; request_query := query;
     request_headers := headers; request_body := payload |}.

(** [curl http://localhost:3000/?lang=vi] *)
Definition get_root_curl : HttpRequest :=
  get_root [("lang", "vi")]
           [("host", "localhost:3000"); ("user-agent", "curl/8.5.0");
            ("accept", "*/*")]
           "".

(** [curl -X GET -H 'content-type: application/json' -d Hello
         http://localhost:3000/] *)
Definition get_root_bad_json : HttpRequest :=
  get_root []
           [("host", "localhost:3000"); ("user-agent", "curl/8.5.0");
            ("accept", "*/*"); ("content-type", "application/json");
            ("content-length", "5")]
           "Hello".

(** What section 2 of the specification says the controller is: the call
    [UseCase.execute()] and nothing else. *)
Definition getHello_spec {W} (this : AppController.t W)
  : JS W (Promise string) :=
  UseCase.execute (AppController.getHelloUseCase this) tt.

(** The example of the guide's unit test:
    [new Product('1', 'Test Product', 100, 'Electronics')]. *)
Definition testProduct : Product.t :=
  {| Product.id := "1"; Product.name := "Test Product";
     Product.price := 100; Product.category := "Electronics" |}.

(** [s] has an occurrence of the character ['@']. *)
Definition contains_at (s : string) : Prop :=
  exists before after : string, s = (before ++ "@" ++ after)%string.

(** [new User('1', 'invalid.email', 'Bob')], built at instant 0. *)
Definition user_without_at : Completion User.t :=
  User.new 0%Z "1" "invalid.email" "Bob" None.

(** A method does no computation on its input when its result is the same
    for all inputs. *)
Definition input_independent {A B : Type} (method : A -> B) : Prop :=
  forall x y : A, method x = method y.

Definition alice : User.t :=
  {| User.id := "1"; User.email := "alice@example.com";
     User.name := "Alice"; User.createdAt := 0%Z |}.

Definition nobody : User.t :=
  {| User.id := "2"; User.email := "invalid.email";
     User.name := "Nobody"; User.createdAt := 0%Z |}.

(** The ids held by the store, in order. *)
Definition ids (products : list Product.t) : list string :=
  List.map Product.id products.

Definition same_id (product p : Product.t) : bool :=
  String.eqb (Product.id p) (Product.id product).

(** What [save] does to the array, said by recursion on the array: the
    first product with the id of [product] is replaced, and if there is
    none [product] goes to the end. *)
Fixpoint upsert (product : Product.t) (products : list Product.t)
  : list Product.t :=
  match products with
  | [] => [product]
  | p :: rest =>
      if same_id product p then product :: rest
      else p :: upsert product rest
  end.

Section CreateUser.

Context {S : Type} (repo : UserRepository.t S) (env : Environment).

(** The user that [execute] builds for a request. *)
Definition built_user (request : CreateUserUseCase.CreateUserRequest)
  : User.t :=
  {| User.id := CreateUserUseCase.generateId env;
     User.email := CreateUserUseCase.email request;
     User.name := CreateUserUseCase.name request;
     User.createdAt := new_Date env |}.

(** The three [throw] statements of [execute], each with the condition
    under which control reaches it from the state [s]. *)
Inductive execute_throws (request : CreateUserUseCase.CreateUserRequest)
          (s : S) : JSError -> Prop :=
| throws_required :
    CreateUserUseCase.email request = ""
    \/ CreateUserUseCase.name request = "" ->
    execute_throws request s (Error "Email and name are required")
| throws_exists (existingUser : User.t) (s' : S) :
    CreateUserUseCase.email request <> "" ->
    CreateUserUseCase.name request <> "" ->
    UserRepository.findByEmail (CreateUserUseCase.email request) s
    = (Normal (Resolved (Some existingUser)), s') ->
    execute_throws request s (Error "User with this email already exists")
| throws_invalid (s' : S) :
    CreateUserUseCase.email request <> "" ->
    CreateUserUseCase.name request <> "" ->
    UserRepository.findByEmail (CreateUserUseCase.email request) s
    = (Normal (Resolved None), s') ->
    User.isValid (built_user request) = false ->
    execute_throws request s (Error "Invalid user data").

(** A run of [execute] on the observed repository, from a state [s] and an
    empty log. *)
Definition observed_run (request : CreateUserUseCase.CreateUserRequest) (s : S)
  : Completion (Promise User.t) * (S * list RepositoryCall) :=
  CreateUserUseCase.execute (spyOn repo) env request (s, []).

Definition settle {A} (r : Completion (Promise A) * S) : Promise A * S :=
  match r with
  | (Normal promise, s') => (promise, s')
  | (Throw e, s') => (Rejected e, s')
  end.

End CreateUser.

(** Test data for [CreateUserUseCase]: what the clock and the random
    generator answer, a request, and a store that already holds [alice]. *)
Definition test_environment : Environment :=
  {| Date_now := 1700000000000%Z;
     Math_random_toString36 := "0.4fzyo82mvyr";
     new_Date := 1700000000000%Z |}.

Definition request_bob : CreateUserUseCase.CreateUserRequest :=
  {| CreateUserUseCase.email := "bob@example.com";
     CreateUserUseCase.name := "Bob" |}.

Definition request_alice : CreateUserUseCase.CreateUserRequest :=
  {| CreateUserUseCase.email := "alice@example.com";
     CreateUserUseCase.name := "Alice again" |}.

Definition request_without_at : CreateUserUseCase.CreateUserRequest :=
  {| CreateUserUseCase.email := "invalid.email";
     CreateUserUseCase.name := "Nobody" |}.

Definition user_bob : User.t :=
  {| User.id := "17000000000004fzyo82mv";
     User.email := "bob@example.com";
     User.name := "Bob";
     User.createdAt := 1700000000000%Z |}.

Definition gadget : Product.t :=
  {| Product.id := "2"; Product.name := "Gadget";
     Product.price := 25; Product.category := "Electronics" |}.

Definition cheaper_testProduct : Product.t :=
  {| Product.id := "1"; Product.name := "Test Product";
     Product.price := 80; Product.category := "Sale" |}.

(** Every code unit of [s] is one that [trim] strips; the empty string is
    blank. *)
Definition is_blank (s : string) : bool :=
  forallb isWhiteSpace (list_ascii_of_string s).

(** The contract of a repository that [execute] relies on to refuse a
    second user with the same email: once [save(u)] has resolved, the
    lookup of the email of [u] resolves to a user. *)
Definition finds_what_it_saved {S : Type} (repo : UserRepository.t S)
  : Prop :=
  forall (u : User.t) (s s' : S),
    UserRepository.save u s = (Normal (Resolved tt), s') ->
    exists (found : User.t) (s'' : S),
      UserRepository.findByEmail (User.email u) s'
      = (Normal (Resolved (Some found)), s'').

(** * Properties *)

(** ** Comparison of binary64 numbers *)

Lemma SFcompare_swap (x y : spec_float) :
  SFcompare y x = option_map CompOpp (SFcompare x y).
Proof.
  destruct x as [sx|sx| |sx mx ex], y as [sy|sy| |sy my ey];
    try destruct sx; try destruct sy; try reflexivity.
  all: cbn [SFcompare option_map];
    rewrite (Z.compare_antisym ex ey);
    destruct (ex ?= ey)%Z; cbn [CompOpp]; try reflexivity.
  all: assert (Hm : PosDef.Pos.compare_cont Eq my mx
                   = CompOpp (PosDef.Pos.compare_cont Eq mx my))
    by (symmetry; exact (Pos.compare_cont_antisym mx my Eq));
    rewrite Hm; reflexivity.
Qed.

(** [x <= y] excludes [y < x], for all binary64 values, NaN included. *)
Lemma float_leb_not_gtb (x y : float) :
  (x <=? y)%float = true -> (y <? x)%float = false.
Proof.
  rewrite leb_spec, ltb_spec. unfold SFleb, SFltb.
  rewrite (SFcompare_swap (Prim2SF x) (Prim2SF y)).
  destruct (SFcompare (Prim2SF x) (Prim2SF y)) as [[ | | ]|];
    cbn; congruence.
Qed.

(** ** Greeting *)

(** C1. [GetHelloUseCase.execute()] takes no input and, from every state,
    returns a promise resolved to the string ["Hello World!"]. *)
Theorem C1_execute_returns_hello_world :
  forall (W : Type) (w : W),
    (GetHelloUseCase.execute tt w).1 = Normal (Resolved "Hello World!").
Proof. intros W w. reflexivity. Qed.

Lemma routes_AppModule (W : Type) :
  List.map fst (@routes W AppModule) = [ (GET, "/") ].
Proof. reflexivity. Qed.

Lemma find_route_get_root (W : Type) (req : HttpRequest) :
  request_method req = GET ->
  request_path req = "/" ->
  List.find (route_matches req) (@routes W AppModule)
  = Some (GET, "/", AppController.getHello appController).
Proof.
  intros Hm Hp. cbn. unfold route_matches. cbn.
  rewrite Hm, Hp. reflexivity.
Qed.




(** C3. The greeting path cannot fail.  From every state,
    [GetHelloUseCase.execute()] does not throw and the promise it returns
    is not rejected; the same holds for [AppController.getHello()] of the
    controller Nest builds; and a GET [/] request is never answered with
    the status of an unhandled error. *)
Theorem C3_greeting_path_cannot_fail :
  forall (W : Type) (w : W) (e : JSError),
    (GetHelloUseCase.execute tt w).1 <> Throw e
    /\ (GetHelloUseCase.execute tt w).1 <> Normal (Rejected e)
    /\ (AppController.getHello appController w).1 <> Throw e
    /\ (AppController.getHello appController w).1 <> Normal (Rejected e)
    /\ (forall query headers payload,
           status (handleRequest AppModule
                     (get_root query headers payload) w).1 <> 500%Z).
Proof.
  intros W w e. cbn. repeat split; try discriminate.
Qed.

(** C4. [AppController.getHello()] returns what
    [GetHelloUseCase.execute()] produces, in the same state.  More
    generally, with any use case injected, [getHello] hands on the promise
    that [execute] returned; the one thing [async] adds is that an [execute]
    that throws instead of returning a promise yields a rejected promise. *)
Theorem C4_getHello_is_pass_through :
  (forall (W : Type) (w : W),
      AppController.getHello appController w = GetHelloUseCase.execute tt w)
  /\ (forall (W : Type) (w : W),
         AppController.getHello appController w = getHello_spec appController w)
  /\ (forall (W : Type) (this : AppController.t W) (w : W),
         AppController.getHello this w
         = match getHello_spec this w with
           | (Normal promise, w') => (Normal promise, w')
           | (Throw e, w') => (Normal (Rejected e), w')
           end).
Proof.
  repeat split.
  intros W this w.
  unfold AppController.getHello, getHello_spec, async, bind, await.
  destruct (UseCase.execute (AppController.getHelloUseCase this) tt w)
    as [[[s|e]|e] w']; reflexivity.
Qed.

(** C5. A call of [execute()], a call of [getHello()] and the handling of a
    request leave the state as it was, whatever the type of the state and
    whatever the request; and what they return does not depend on it. *)
Theorem C5_greeting_has_no_side_effect :
  forall (W : Type) (w : W),
    (GetHelloUseCase.execute tt w).2 = w
    /\ (AppController.getHello appController w).2 = w
    /\ (forall req : HttpRequest, (handleRequest AppModule req w).2 = w)
    /\ (forall (W' : Type) (w' : W'),
           (GetHelloUseCase.execute tt w').1 = (GetHelloUseCase.execute tt w).1).
Proof.
  intros W w. repeat split.
  intros req. unfold handleRequest.
  destruct (List.find (route_matches req) (routes AppModule))
    as [[[m path] handler]|] eqn:Hfind; [|reflexivity].
  apply find_some in Hfind as [Hin _].
  cbn in Hin. destruct Hin as [Heq|[]]. inversion Heq; subst. reflexivity.
Qed.

(** ** Product.applyDiscount *)

(** ['should apply discount correctly']: the discounted price is 80. *)
Example applyDiscount_20 :
  Product.applyDiscount 0 20 [testProduct]
  = (Normal 1%nat,
     [testProduct;
      {| Product.id := "1"; Product.name := "Test Product";
         Product.price := 80; Product.category := "Electronics" |}]).
Proof. vm_compute. reflexivity. Qed.

(** ['should throw error for invalid discount'] *)
Example applyDiscount_minus_10 :
  Product.applyDiscount 0 (-10) [testProduct]
  = (Throw (Error "Invalid discount percentage"), [testProduct]).
Proof. vm_compute. reflexivity. Qed.

(** Not-a-number is neither below 0 nor above 100: no error, and the new
    price is not a number. *)
Example applyDiscount_nan :
  (Product.applyDiscount 0 nan [testProduct]).1 = Normal 1%nat.
Proof. vm_compute. reflexivity. Qed.

(** C8. For a product [p] (the object at [this]) and every number [d]:
    [applyDiscount(d)] throws exactly when [d < 0] or [d > 100], and what it
    throws is [Error('Invalid discount percentage')]; for [0 <= d <= 100] it
    returns a new object whose price is [p.price * (1 - d / 100)] and whose
    id, name and category are those of [p]; in every case the objects that
    existed before the call, [p] among them, are as they were. *)
Theorem C8_applyDiscount :
  forall (heap : Product.Heap) (this : Product.ref) (p : Product.t) (d : float),
    heap !! this = Some p ->
    let outcome := Product.applyDiscount this d heap in
    ((exists e, outcome.1 = Throw e)
     <-> ((d <? 0)%float = true \/ (100 <? d)%float = true))
    /\ (forall e, outcome.1 = Throw e ->
                  e = Error "Invalid discount percentage" /\ outcome.2 = heap)
    /\ ((0 <=? d)%float = true -> (d <=? 100)%float = true ->
        exists result : Product.ref,
          outcome.1 = Normal result
          /\ heap !! result = None
          /\ outcome.2 !! result
             = Some {| Product.id := Product.id p;
                       Product.name := Product.name p;
                       Product.price :=
                         (Product.price p * (1 - d / 100))%float;
                       Product.category := Product.category p |})
    /\ (forall (r : Product.ref) (q : Product.t),
           heap !! r = Some q -> outcome.2 !! r = Some q).
Proof.
  intros heap this p d Hp outcome. subst outcome.
  unfold Product.applyDiscount, Product.deref, bind. rewrite Hp.
  destruct ((d <? 0)%float || (100 <? d)%float) eqn:Hbad.
  - apply orb_true_iff in Hbad. cbn.
    repeat split; auto.
    + eexists; reflexivity.
    + congruence.
    + intros H0 H100. apply float_leb_not_gtb in H0, H100.
      destruct Hbad; congruence.
  - apply orb_false_iff in Hbad as [Hlo Hhi]. unfold Product.new. cbn [fst snd].
    repeat split.
    + intros [e He]. discriminate.
    + intros [H|H]; congruence.
    + discriminate.
    + discriminate.
    + intros _ _. exists (length heap). repeat split.
      * apply lookup_ge_None_2. lia.
      * rewrite lookup_app_r by lia.
        replace (length heap - length heap)%nat with 0%nat by lia.
        reflexivity.
    + intros r q Hr. now apply lookup_app_l_Some.
Qed.

Lemma C8_applyDiscount_witness :
  exists result : Product.ref,
    (Product.applyDiscount 0 20 [testProduct]).1 = Normal result
    /\ (Product.applyDiscount 0 20 [testProduct]).2 !! 0%nat = Some testProduct.
Proof.
  destruct (C8_applyDiscount [testProduct] 0%nat testProduct 20 eq_refl)
    as (_ & _ & Hok & Hframe).
  destruct (Hok eq_refl eq_refl) as (result & Hres & _ & _).
  exists result. split; [exact Hres | exact (Hframe 0%nat testProduct eq_refl)].
Defined.

(** ** User *)

Lemma prefix_empty (s : string) : String.prefix "" s = true.
Proof. destruct s; reflexivity. Qed.

Lemma includes_at (s : string) : includes s "@" = true <-> contains_at s.
Proof.
  induction s as [|c rest IH].
  - cbn. split; [discriminate|].
    intros (before & after & H). destruct before; discriminate.
  - cbn [includes String.prefix]. rewrite orb_true_iff, IH.
    destruct (ascii_dec "@" c) as [<-|Hc].
    + rewrite prefix_empty. split; [|tauto].
      intros _. exists "", rest. reflexivity.
    + split.
      * intros [H|(before & after & ->)]; [discriminate|].
        exists (String c before), after. reflexivity.
      * intros (before & after & H). right.
        destruct before as [|c' before]; cbn in H; inversion H; subst.
        -- contradiction.
        -- exists before, after. reflexivity.
Qed.

Lemma isValid_iff (u : User.t) :
  User.isValid u = true <-> contains_at (User.email u) /\ User.name u <> "".
Proof.
  unfold User.isValid. rewrite andb_true_iff, includes_at, Nat.ltb_lt.
  destruct (User.name u); cbn; split; intros [H1 H2]; split;
    solve [assumption | lia | discriminate | congruence].
Qed.

(** C6, as stated, fails: the constructor of [User] accepts an email
    without ['@']. *)
Lemma C6_counterexample :
  exists u : User.t,
    user_without_at = Normal u
    /\ User.email u = "invalid.email"
    /\ ~ contains_at (User.email u).
Proof.
  eexists. split; [reflexivity|]. split; [reflexivity|].
  rewrite <- includes_at. cbn. discriminate.
Qed.

(** ** What else the repository implements *)

Lemma findById_delete (products : list Product.t) (id : string) :
  ProductRepositoryImpl.findById
    id (ProductRepositoryImpl.delete id products).2
  = (Normal (Resolved None), (ProductRepositoryImpl.delete id products).2).
Proof.
  unfold ProductRepositoryImpl.findById, ProductRepositoryImpl.delete,
    async, bind, get, put, ret. cbn [snd].
  induction products as [|p rest IH]; [reflexivity|].
  cbn [List.filter]. destruct (String.eqb (Product.id p) id) eqn:Hp;
    cbn [negb]; [exact IH|].
  cbn [List.find]. rewrite Hp.
  destruct (List.find _ _) eqn:Hfind; [discriminate IH|reflexivity].
Qed.

(** C7, as stated, fails: [user.entity.ts] implements logic of its own.
    [isValid] tells two users apart, so it is not a constant. *)
Lemma C7_counterexample :
  User.isValid alice = true
  /\ User.isValid nobody = false
  /\ ~ input_independent User.isValid.
Proof.
  split; [reflexivity|]. split; [reflexivity|].
  intros H. specialize (H alice nobody). discriminate H.
Qed.

(** C7, amended.  The greeting handler is the only logic wired into the
    application: the routes of [AppModule] are GET [/] and no other.  The
    repository implements more than it wires, with laws of its own:
    [User.isValid()] holds exactly for an email with ['@'] and a non-empty
    name; [BaseEntity.equals] is an equivalence, that of having the same
    id; and in the guide's [ProductRepositoryImpl], a [findById(id)] after
    [delete(id)] resolves to [null]. *)
Theorem C7_other_logic_has_laws :
  (forall W : Type, List.map fst (@routes W AppModule) = [ (GET, "/") ])
  /\ (forall u : User.t,
         User.isValid u = true
         <-> contains_at (User.email u) /\ User.name u <> "")
  /\ (forall a b : BaseEntity.t,
         BaseEntity.equals a b = true <-> BaseEntity.id a = BaseEntity.id b)
  /\ (forall a : BaseEntity.t, BaseEntity.equals a a = true)
  /\ (forall a b : BaseEntity.t,
         BaseEntity.equals a b = BaseEntity.equals b a)
  /\ (forall a b c : BaseEntity.t,
         BaseEntity.equals a b = true -> BaseEntity.equals b c = true ->
         BaseEntity.equals a c = true)
  /\ (forall (products : list Product.t) (id : string),
         ProductRepositoryImpl.findById
           id (ProductRepositoryImpl.delete id products).2
         = (Normal (Resolved None),
            (ProductRepositoryImpl.delete id products).2)).
Proof.
  unfold BaseEntity.equals.
  split; [exact routes_AppModule|].
  split; [exact isValid_iff|].
  split; [intros a b; apply String.eqb_eq|].
  split; [intros a; apply String.eqb_refl|].
  split; [intros a b; apply String.eqb_sym|].
  split.
  - intros a b c Hab Hbc. apply String.eqb_eq in Hab, Hbc.
    apply String.eqb_eq. congruence.
  - intros products id. apply findById_delete.
Qed.

(** ** ProductRepositoryImpl *)

Lemma findIndex_lower_bound {A} (pred : A -> bool) (l : list A) :
  (-1 <= findIndex pred l)%Z.
Proof.
  induction l as [|x rest IH]; cbn; [lia|].
  destruct (pred x); [lia|].
  destruct (findIndex pred rest <? 0)%Z eqn:E; lia.
Qed.

Lemma save_returns (product : Product.t) (products : list Product.t) :
  (ProductRepositoryImpl.save product products).1 = Normal (Resolved tt).
Proof.
  unfold ProductRepositoryImpl.save, async, bind, get, put.
  destruct (0 <=? _)%Z; reflexivity.
Qed.

Lemma save_state (product : Product.t) (products : list Product.t) :
  (ProductRepositoryImpl.save product products).2 = upsert product products.
Proof.
  unfold ProductRepositoryImpl.save, async, bind, get, put.
  fold (same_id product).
  induction products as [|p rest IH].
  - reflexivity.
  - cbn [findIndex upsert]. destruct (same_id product p); [reflexivity|].
    pose proof (findIndex_lower_bound (same_id product) rest) as Hlow.
    destruct (findIndex (same_id product) rest <? 0)%Z eqn:Hneg.
    + apply Z.ltb_lt in Hneg.
      destruct (0 <=? findIndex (same_id product) rest)%Z eqn:Hpos;
        [apply Z.leb_le in Hpos; lia|].
      cbn in IH |- *. now rewrite <- IH.
    + apply Z.ltb_ge in Hneg.
      destruct (0 <=? findIndex (same_id product) rest)%Z eqn:Hpos;
        [|apply Z.leb_gt in Hpos; lia].
      destruct (0 <=? findIndex (same_id product) rest + 1)%Z eqn:Hpos';
        [|apply Z.leb_gt in Hpos'; lia].
      cbn in IH |- *. rewrite <- IH.
      rewrite Z2Nat.inj_add by lia. rewrite Nat.add_1_r. reflexivity.
Qed.

Lemma find_upsert (product : Product.t) (products : list Product.t) :
  List.find (fun p => String.eqb (Product.id p) (Product.id product))
            (upsert product products)
  = Some product.
Proof.
  fold (same_id product).
  induction products as [|p rest IH]; cbn.
  - unfold same_id. now rewrite String.eqb_refl.
  - destruct (same_id product p) eqn:Hp; cbn.
    + unfold same_id at 1. now rewrite String.eqb_refl.
    + now rewrite Hp.
Qed.

Lemma ids_upsert_elem (product : Product.t) (products : list Product.t)
      (i : string) :
  i ∈ ids (upsert product products)
  -> i = Product.id product \/ i ∈ ids products.
Proof.
  induction products as [|p rest IH]; cbn.
  - rewrite list_elem_of_singleton. auto.
  - destruct (same_id product p) eqn:Hp; cbn; rewrite !elem_of_cons.
    + intros [->|H]; auto.
    + intros [->|H]; auto. destruct (IH H); auto.
Qed.

Lemma NoDup_upsert (product : Product.t) (products : list Product.t) :
  NoDup (ids products) -> NoDup (ids (upsert product products)).
Proof.
  induction products as [|p rest IH]; cbn; intros Hnd.
  - apply NoDup_singleton.
  - apply NoDup_cons in Hnd as [Hnotin Hrest].
    destruct (same_id product p) eqn:Hp; cbn.
    + apply String.eqb_eq in Hp. apply NoDup_cons. split; [|assumption].
      now rewrite <- Hp.
    + apply NoDup_cons. split; [|auto].
      intros Hin. apply ids_upsert_elem in Hin as [Heq|Hin]; [|contradiction].
      unfold same_id in Hp. apply String.eqb_neq in Hp. contradiction.
Qed.

Lemma delete_state (id : string) (products : list Product.t) :
  (ProductRepositoryImpl.delete id products).2
  = List.filter (fun p => negb (String.eqb (Product.id p) id)) products.
Proof. reflexivity. Qed.

Lemma NoDup_ids_filter (keep : Product.t -> bool) (products : list Product.t) :
  NoDup (ids products) -> NoDup (ids (List.filter keep products)).
Proof.
  induction products as [|p rest IH]; cbn; intros Hnd; [constructor|].
  apply NoDup_cons in Hnd as [Hnotin Hrest].
  destruct (keep p); cbn; [|auto].
  apply NoDup_cons. split; [|auto].
  intros Hin. apply Hnotin.
  unfold ids in *. apply list_elem_of_fmap in Hin as (q & -> & Hq).
  apply list_elem_of_fmap. exists q. split; [reflexivity|].
  apply list_elem_of_In in Hq. apply filter_In in Hq as [Hq _].
  now apply list_elem_of_In.
Qed.

Lemma reachable_NoDup (products : list Product.t) :
  ProductRepositoryImpl.reachable products -> NoDup (ids products).
Proof.
  induction 1 as [|s p _ IH|s id _ IH].
  - constructor.
  - rewrite save_state. now apply NoDup_upsert.
  - rewrite delete_state. now apply NoDup_ids_filter.
Qed.

(** C10. From every state of the store, [save(p)] resolves, and a
    [findById(p.id)] that follows resolves to [p] and leaves the store as
    [save] left it.  [save] is an upsert: it replaces the stored product
    with the id of [p] if there is one, and adds [p] otherwise, so it keeps
    the ids of the store distinct.  The store starts empty and is written
    by [save] and [delete] only, so it never holds two products with the
    same id. *)
Theorem C10_save_then_findById :
  (forall (products : list Product.t) (p : Product.t),
      (ProductRepositoryImpl.save p products).1 = Normal (Resolved tt)
      /\ ProductRepositoryImpl.findById
           (Product.id p) (ProductRepositoryImpl.save p products).2
         = (Normal (Resolved (Some p)),
            (ProductRepositoryImpl.save p products).2))
  /\ (forall (products : list Product.t) (p : Product.t),
         (ProductRepositoryImpl.save p products).2 = upsert p products)
  /\ (forall (products : list Product.t) (p : Product.t),
         NoDup (ids products) ->
         NoDup (ids (ProductRepositoryImpl.save p products).2))
  /\ (forall products : list Product.t,
         ProductRepositoryImpl.reachable products -> NoDup (ids products)).
Proof.
  split; [|split; [|split]].
  - intros products p. split; [apply save_returns|].
    rewrite save_state.
    unfold ProductRepositoryImpl.findById, async, bind, get, ret.
    now rewrite find_upsert.
  - intros products p. apply save_state.
  - intros products p Hnd. rewrite save_state. now apply NoDup_upsert.
  - exact reachable_NoDup.
Qed.

(** ** CreateUserUseCase *)

(** The run, path by path. *)
Lemma observed_run_cases {S : Type} (repo : UserRepository.t S)
      (env : Environment) (request : CreateUserUseCase.CreateUserRequest)
      (s : S) :
  let email := CreateUserUseCase.email request in
  let user := built_user env request in
  observed_run repo env request s
  = if negb (truthy email) || negb (truthy (CreateUserUseCase.name request))
    then (Normal (Rejected (Error "Email and name are required")), (s, []))
    else
      match settle (UserRepository.findByEmail email s) with
      | (Rejected e, s1) =>
          (Normal (Rejected e), (s1, [CallFindByEmail email]))
      | (Resolved (Some _), s1) =>
          (Normal (Rejected (Error "User with this email already exists")),
           (s1, [CallFindByEmail email]))
      | (Resolved None, s1) =>
          if negb (User.isValid user)
          then (Normal (Rejected (Error "Invalid user data")),
                (s1, [CallFindByEmail email]))
          else
            match settle (UserRepository.save user s1) with
            | (Resolved _, s2) =>
                (Normal (Resolved user),
                 (s2, [CallFindByEmail email; CallSave user]))
            | (Rejected e, s2) =>
                (Normal (Rejected e),
                 (s2, [CallFindByEmail email; CallSave user]))
            end
      end.
Proof.
  intros email user. subst email user.
  unfold observed_run, CreateUserUseCase.execute, async.
  destruct (negb (truthy (CreateUserUseCase.email request))
            || negb (truthy (CreateUserUseCase.name request))); [reflexivity|].
  unfold bind at 1. cbn [UserRepository.findByEmail spyOn recorded].
  destruct (UserRepository.findByEmail (CreateUserUseCase.email request) s)
    as [[[[existing|]|e]|e] s1]; cbn [settle]; try reflexivity.
  unfold bind, await, ret, CreateUserUseCase.lift, User.new. cbn [default].
  fold (built_user env request).
  destruct (negb (User.isValid (built_user env request))); [reflexivity|].
  cbn [UserRepository.save spyOn recorded app].
  destruct (UserRepository.save (built_user env request) s1)
    as [[[[]|e]|e] s2]; reflexivity.
Qed.

(** Observing the repository does not change what [execute] does. *)
Lemma observed_run_transparent {S : Type} (repo : UserRepository.t S)
      (env : Environment) (request : CreateUserUseCase.CreateUserRequest)
      (s : S) :
  CreateUserUseCase.execute repo env request s
  = ((observed_run repo env request s).1, (observed_run repo env request s).2.1).
Proof.
  rewrite observed_run_cases. cbv zeta.
  unfold CreateUserUseCase.execute, async.
  destruct (negb (truthy (CreateUserUseCase.email request))
            || negb (truthy (CreateUserUseCase.name request))); [reflexivity|].
  unfold bind at 1.
  destruct (UserRepository.findByEmail (CreateUserUseCase.email request) s)
    as [[[[existing|]|e]|e] s1]; cbn [settle]; try reflexivity.
  unfold bind, await, ret, CreateUserUseCase.lift, User.new. cbn [default].
  fold (built_user env request).
  destruct (negb (User.isValid (built_user env request))); [reflexivity|].
  destruct (UserRepository.save (built_user env request) s1)
    as [[[[]|e]|e] s2]; reflexivity.
Qed.

Lemma truthy_false (s : string) : truthy s = false <-> s = "".
Proof.
  unfold truthy. rewrite negb_false_iff. apply String.eqb_eq.
Qed.

Lemma truthy_true (s : string) : truthy s = true <-> s <> "".
Proof.
  unfold truthy. rewrite negb_true_iff. apply String.eqb_neq.
Qed.

Lemma request_guard (request : CreateUserUseCase.CreateUserRequest) :
  negb (truthy (CreateUserUseCase.email request))
  || negb (truthy (CreateUserUseCase.name request)) = true
  <-> CreateUserUseCase.email request = ""
      \/ CreateUserUseCase.name request = "".
Proof.
  rewrite orb_true_iff, !negb_true_iff, !truthy_false. reflexivity.
Qed.

Lemma request_guard_passed (request : CreateUserUseCase.CreateUserRequest) :
  CreateUserUseCase.email request <> "" ->
  CreateUserUseCase.name request <> "" ->
  negb (truthy (CreateUserUseCase.email request))
  || negb (truthy (CreateUserUseCase.name request)) = false.
Proof.
  intros He Hn. apply truthy_true in He, Hn. now rewrite He, Hn.
Qed.

(** When the promise of [execute] is rejected, the reason is one of its own
    three errors, or it is the reason for which a call to the repository
    failed.  The log holds a call to [save] in the last case only: when it
    is [save] itself that failed. *)
Lemma observed_run_rejected {S : Type} (repo : UserRepository.t S)
      (env : Environment) (request : CreateUserUseCase.CreateUserRequest)
      (s : S) (e : JSError) :
  (observed_run repo env request s).1 = Normal (Rejected e) ->
  (execute_throws repo env request s e
   /\ Forall (fun c => is_save c = false) (observed_run repo env request s).2.2)
  \/ (exists s1,
         settle (UserRepository.findByEmail
                   (CreateUserUseCase.email request) s) = (Rejected e, s1)
         /\ (observed_run repo env request s).2
            = (s1, [CallFindByEmail (CreateUserUseCase.email request)]))
  \/ (exists s1 s2,
         settle (UserRepository.save (built_user env request) s1)
         = (Rejected e, s2)
         /\ (observed_run repo env request s).2
            = (s2, [CallFindByEmail (CreateUserUseCase.email request);
                    CallSave (built_user env request)])).
Proof.
  rewrite observed_run_cases. cbv zeta.
  destruct (negb (truthy (CreateUserUseCase.email request))
            || negb (truthy (CreateUserUseCase.name request))) eqn:Hguard.
  { intros [= <-]. left. split; [|constructor].
    apply throws_required. now apply request_guard. }
  apply orb_false_iff in Hguard as [He Hn].
  apply negb_false_iff, truthy_true in He, Hn.
  destruct (UserRepository.findByEmail (CreateUserUseCase.email request) s)
    as [[[[existing|]|e1]|e1] s1] eqn:Hfind; cbn [settle].
  - intros [= <-]. left. split; [|repeat constructor].
    now apply (throws_exists repo env request s existing s1).
  - destruct (negb (User.isValid (built_user env request))) eqn:Hvalid.
    + intros [= <-]. left. split; [|repeat constructor].
      apply negb_true_iff in Hvalid.
      now apply (throws_invalid repo env request s s1).
    + destruct (settle (UserRepository.save (built_user env request) s1))
        as [[[]|e2] s2] eqn:Hsave; cbn; intros [= <-].
      right. right. exists s1, s2. split; [assumption|reflexivity].
  - intros [= <-]. right. left. exists s1. split; reflexivity.
  - intros [= <-]. right. left. exists s1. split; reflexivity.
Qed.

(** A user that [execute] resolves to has passed [isValid()]. *)
Lemma execute_resolved_isValid {S : Type} (repo : UserRepository.t S)
      (env : Environment) (request : CreateUserUseCase.CreateUserRequest)
      (s : S) (user : User.t) :
  (CreateUserUseCase.execute repo env request s).1 = Normal (Resolved user) ->
  User.isValid user = true.
Proof.
  rewrite observed_run_transparent, observed_run_cases. cbv zeta. cbn [fst].
  destruct (_ || _); [discriminate|].
  destruct (settle _) as [[[existing|]|e] s1]; try discriminate.
  destruct (negb _) eqn:Hvalid; [discriminate|].
  apply negb_false_iff in Hvalid.
  destruct (settle _) as [[[]|e] s2]; [|discriminate].
  cbn. now intros [= <-].
Qed.

(** C6, amended.  The constructor of [User] checks nothing: for all
    arguments it completes and stores the email it was given.  The check is
    [isValid()], applied to an object that already exists: the users for
    which it returns [true] are exactly those whose email contains ['@']
    and whose name is not empty.  [CreateUserUseCase.execute] applies it to
    the user it has built, so a user it resolves to has an email that
    contains ['@']. *)
Theorem C6_email_checked_by_isValid :
  (forall (now : Date) (id email name : string) (createdAt : option Date),
      exists u : User.t,
        User.new now id email name createdAt = Normal u
        /\ User.id u = id /\ User.email u = email /\ User.name u = name)
  /\ (forall u : User.t,
         User.isValid u = true
         <-> contains_at (User.email u) /\ User.name u <> "")
  /\ (forall (S : Type) (repo : UserRepository.t S) (env : Environment)
             (request : CreateUserUseCase.CreateUserRequest) (s : S)
             (user : User.t),
         (CreateUserUseCase.execute repo env request s).1
         = Normal (Resolved user) ->
         contains_at (User.email user)).
Proof.
  split; [|split].
  - intros now id email name createdAt. eexists. split; [reflexivity|].
    cbn. auto.
  - exact isValid_iff.
  - intros S repo env request s user Hrun.
    apply execute_resolved_isValid in Hrun. now apply isValid_iff in Hrun.
Qed.

(** C9. [execute] is atomic on error.  It never throws: it returns a
    promise.  For each of its three errors (email or name missing; a user
    with the email of the request found; the built user failing
    [isValid()]) the promise is rejected with that error, no call to [save]
    was made, and the repository is in the state the lookup left it in,
    which is the state before the call when [findByEmail] only reads.  When
    the promise resolves, it resolves to a user with the email and the name
    of the request, and the calls made to the repository are one lookup
    followed by one [save] of that same user.  The repository is any
    implementation of the interface, and what is observed of it is what
    [execute] does on it. *)
Theorem C9_create_user_atomic_on_error :
  forall (S : Type) (repo : UserRepository.t S) (env : Environment)
         (request : CreateUserUseCase.CreateUserRequest) (s : S),
    let run := observed_run repo env request s in
    CreateUserUseCase.execute repo env request s = (run.1, run.2.1)
    /\ (exists promise : Promise User.t, run.1 = Normal promise)
    /\ (forall e : JSError,
           execute_throws repo env request s e ->
           run.1 = Normal (Rejected e)
           /\ Forall (fun c => is_save c = false) run.2.2
           /\ ((forall (email : string) (s0 : S),
                   (UserRepository.findByEmail email s0).2 = s0) ->
               run.2.1 = s))
    /\ (forall user : User.t,
           run.1 = Normal (Resolved user) ->
           User.email user = CreateUserUseCase.email request
           /\ User.name user = CreateUserUseCase.name request
           /\ run.2.2 = [CallFindByEmail (CreateUserUseCase.email request);
                         CallSave user]).
Proof.
  intros S repo env request s run. subst run.
  split; [apply observed_run_transparent|].
  rewrite observed_run_cases. cbv zeta.
  split; [|split].
  - destruct (_ || _); [eexists; reflexivity|].
    destruct (settle _) as [[[existing|]|e] s1]; try (eexists; reflexivity).
    destruct (negb _); [eexists; reflexivity|].
    destruct (settle _) as [[[]|e] s2]; eexists; reflexivity.
  - intros e Hthrows.
    destruct Hthrows as [Hmissing|existing s1 He Hn Hfind|s1 He Hn Hfind Hinvalid].
    + apply request_guard in Hmissing. rewrite Hmissing. cbn.
      split; [reflexivity|]. split; [constructor|reflexivity].
    + rewrite (request_guard_passed request He Hn), Hfind. cbn.
      split; [reflexivity|]. split; [repeat constructor|].
      intros Hread. specialize (Hread (CreateUserUseCase.email request) s).
      now rewrite Hfind in Hread.
    + rewrite (request_guard_passed request He Hn), Hfind, Hinvalid. cbn.
      split; [reflexivity|]. split; [repeat constructor|].
      intros Hread. specialize (Hread (CreateUserUseCase.email request) s).
      now rewrite Hfind in Hread.
  - intros user.
    destruct (_ || _); [discriminate|].
    destruct (settle _) as [[[existing|]|e] s1]; try discriminate.
    destruct (negb _); [discriminate|].
    destruct (settle _) as [[[]|e] s2]; [|discriminate].
    cbn. intros [= <-]. repeat split.
Qed.


(** Runs on the in-memory repository. *)
Example create_bob :
  observed_run InMemoryUserRepository test_environment request_bob [alice]
  = (Normal (Resolved user_bob),
     ([alice; user_bob],
      [CallFindByEmail "bob@example.com"; CallSave user_bob])).
Proof. vm_compute. reflexivity. Qed.

Example create_alice_again :
  observed_run InMemoryUserRepository test_environment request_alice [alice]
  = (Normal (Rejected (Error "User with this email already exists")),
     ([alice], [CallFindByEmail "alice@example.com"])).
Proof. vm_compute. reflexivity. Qed.

Example create_without_at :
  observed_run InMemoryUserRepository test_environment request_without_at
               [alice]
  = (Normal (Rejected (Error "Invalid user data")),
     ([alice], [CallFindByEmail "invalid.email"])).
Proof. vm_compute. reflexivity. Qed.

Lemma C9_create_user_atomic_on_error_witness :
  CreateUserUseCase.execute InMemoryUserRepository test_environment
                            request_alice [alice]
  = (Normal (Rejected (Error "User with this email already exists")), [alice])
  /\ Forall (fun c => is_save c = false)
            (observed_run InMemoryUserRepository test_environment
                          request_alice [alice]).2.2.
Proof.
  destruct (C9_create_user_atomic_on_error
              (list User.t) InMemoryUserRepository test_environment
              request_alice [alice]) as (Hrun & _ & Hthrows & _).
  destruct (Hthrows (Error "User with this email already exists"))
    as (Hrejected & Hlog & Hstate).
  - apply (throws_exists InMemoryUserRepository test_environment
                         request_alice [alice] alice [alice]);
      [discriminate | discriminate | reflexivity].
  - split; [|exact Hlog].
    rewrite Hrun, Hrejected, Hstate; [reflexivity|].
    intros email s0. reflexivity.
Defined.

(** * Further properties *)

(** ** ProductRepositoryImpl: lookups, writes and how they compose *)

Lemma findById_returns (id : string) (products : list Product.t) :
  ProductRepositoryImpl.findById id products
  = (Normal (Resolved
               (List.find (fun p => String.eqb (Product.id p) id) products)),
     products).
Proof. reflexivity. Qed.

Lemma find_id_None (id : string) (products : list Product.t) :
  List.find (fun p => String.eqb (Product.id p) id) products = None
  <-> id ∉ ids products.
Proof.
  induction products as [|p rest IH]; cbn.
  - split; [intros _ H; inversion H|reflexivity].
  - rewrite not_elem_of_cons.
    destruct (String.eqb (Product.id p) id) eqn:Hp.
    + apply String.eqb_eq in Hp. split; [discriminate|]. intros [H _].
      congruence.
    + apply String.eqb_neq in Hp. rewrite IH. split; [|tauto].
      intros H. split; [congruence|assumption].
Qed.

Lemma find_id_Some (id : string) (products : list Product.t) (q : Product.t) :
  List.find (fun p => String.eqb (Product.id p) id) products = Some q ->
  q ∈ products /\ Product.id q = id.
Proof.
  intros H. apply find_some in H as [Hin Hq].
  split; [now apply list_elem_of_In|now apply String.eqb_eq].
Qed.

Lemma find_id_unique (id : string) (products : list Product.t)
      (q : Product.t) :
  NoDup (ids products) -> q ∈ products -> Product.id q = id ->
  List.find (fun p => String.eqb (Product.id p) id) products = Some q.
Proof.
  induction products as [|p rest IH]; cbn; intros Hnd Hin Hq.
  - inversion Hin.
  - apply NoDup_cons in Hnd as [Hnotin Hrest].
    apply elem_of_cons in Hin as [->|Hin].
    + rewrite <- Hq, String.eqb_refl. reflexivity.
    + destruct (String.eqb (Product.id p) id) eqn:Hp; [|auto].
      apply String.eqb_eq in Hp. exfalso. apply Hnotin.
      rewrite Hp, <- Hq. unfold ids. apply list_elem_of_fmap.
      exists q. auto.
Qed.

(** X1. [findById(id)] resolves and leaves the store alone.  It resolves
    to [null] exactly when no stored product has the id, and otherwise to a
    stored product with the id: the first one.  In a store reached from the
    empty one by [save] and [delete] the ids are distinct, so there every
    stored product is the one found under its id. *)
Theorem X1_findById_finds_what_is_stored :
  forall (products : list Product.t) (id : string),
  exists found : option Product.t,
    ProductRepositoryImpl.findById id products
    = (Normal (Resolved found), products)
    /\ (found = None <-> id ∉ ids products)
    /\ (forall q, found = Some q -> q ∈ products /\ Product.id q = id)
    /\ (ProductRepositoryImpl.reachable products ->
        forall q, q ∈ products -> Product.id q = id -> found = Some q).
Proof.
  intros products id. eexists. split; [apply findById_returns|].
  split; [apply find_id_None|]. split; [apply find_id_Some|].
  intros Hreach q Hin Hq. apply find_id_unique; auto using reachable_NoDup.
Qed.

Lemma find_upsert_other (p : Product.t) (products : list Product.t)
      (id : string) :
  id <> Product.id p ->
  List.find (fun q => String.eqb (Product.id q) id) (upsert p products)
  = List.find (fun q => String.eqb (Product.id q) id) products.
Proof.
  intros Hne. induction products as [|q rest IH]; cbn.
  - destruct (String.eqb (Product.id p) id) eqn:Hp; [|reflexivity].
    apply String.eqb_eq in Hp. congruence.
  - destruct (same_id p q) eqn:Hq; cbn.
    + unfold same_id in Hq. apply String.eqb_eq in Hq.
      destruct (String.eqb (Product.id p) id) eqn:Hp;
        [apply String.eqb_eq in Hp; congruence|].
      destruct (String.eqb (Product.id q) id) eqn:Hq';
        [apply String.eqb_eq in Hq'; congruence|reflexivity].
    + now rewrite IH.
Qed.

Lemma ids_upsert (p : Product.t) (products : list Product.t) (i : string) :
  i ∈ ids (upsert p products) <-> i = Product.id p \/ i ∈ ids products.
Proof.
  split; [apply ids_upsert_elem|].
  induction products as [|q rest IH]; cbn.
  - rewrite list_elem_of_singleton. intros [->|H]; [reflexivity|inversion H].
  - destruct (same_id p q) eqn:Hq; cbn; rewrite !elem_of_cons.
    + unfold same_id in Hq. apply String.eqb_eq in Hq.
      intros [->|[->|H]]; auto.
    + intros [->|[->|H]]; auto.
Qed.

(** X2. [save(p)] touches the id of [p] and no other: the lookup of every
    other id resolves to what it resolved to before, and the ids held
    afterwards are those held before together with the id of [p]. *)
Theorem X2_save_leaves_other_ids :
  forall (products : list Product.t) (p : Product.t) (id : string),
    id <> Product.id p ->
    (ProductRepositoryImpl.findById
       id (ProductRepositoryImpl.save p products).2).1
    = (ProductRepositoryImpl.findById id products).1
    /\ (forall i : string,
           i ∈ ids (ProductRepositoryImpl.save p products).2
           <-> i = Product.id p \/ i ∈ ids products).
Proof.
  intros products p id Hne. rewrite save_state, !findById_returns.
  cbn [fst]. rewrite (find_upsert_other p products id Hne).
  split; [reflexivity|]. intros i. apply ids_upsert.
Qed.

Lemma X2_save_leaves_other_ids_witness :
  (ProductRepositoryImpl.findById
     "2" (ProductRepositoryImpl.save cheaper_testProduct
                                     [testProduct; gadget]).2).1
  = Normal (Resolved (Some gadget)).
Proof.
  destruct (X2_save_leaves_other_ids
              [testProduct; gadget] cheaper_testProduct "2") as [H _].
  - discriminate.
  - rewrite H. reflexivity.
Defined.

Lemma length_upsert (p : Product.t) (products : list Product.t) :
  length (upsert p products)
  = if decide (Product.id p ∈ ids products)
    then length products else S (length products).
Proof.
  induction products as [|q rest IH].
  - cbn. rewrite decide_False; [reflexivity|]. intros H. inversion H.
  - cbn [upsert]. destruct (same_id p q) eqn:Hq; unfold same_id in Hq.
    + apply String.eqb_eq in Hq.
      rewrite decide_True; [reflexivity|].
      cbn. rewrite Hq. apply list_elem_of_here.
    + apply String.eqb_neq in Hq. cbn [length]. rewrite IH.
      destruct (decide (Product.id p ∈ ids rest)) as [Hin|Hnotin].
      * rewrite decide_True; [reflexivity|].
        cbn. now apply list_elem_of_further.
      * rewrite decide_False; [reflexivity|].
        cbn. rewrite not_elem_of_cons. split; [congruence|assumption].
Qed.

Lemma upsert_same_id (p p' : Product.t) (products : list Product.t) :
  Product.id p' = Product.id p ->
  upsert p' (upsert p products) = upsert p' products.
Proof.
  intros Hid. induction products as [|q rest IH]; cbn.
  - unfold same_id. now rewrite Hid, String.eqb_refl.
  - unfold same_id. rewrite Hid.
    destruct (String.eqb (Product.id q) (Product.id p)) eqn:Hq; cbn.
    + unfold same_id. now rewrite Hid, String.eqb_refl.
    + unfold same_id. rewrite Hid, Hq. now rewrite IH.
Qed.

(** X3. [save] is an upsert in its size and in its repetition: the store
    grows by one product when the id of [p] is new and keeps its size when
    the id is already held; saving [p] twice is saving it once; and of two
    saves under one id the last one is what remains, as if the first had
    not been made. *)
Theorem X3_save_overwrites :
  forall (products : list Product.t) (p : Product.t),
    length (ProductRepositoryImpl.save p products).2
    = (if decide (Product.id p ∈ ids products)
       then length products else S (length products))
    /\ (ProductRepositoryImpl.save
          p (ProductRepositoryImpl.save p products).2).2
       = (ProductRepositoryImpl.save p products).2
    /\ (forall p' : Product.t,
           Product.id p' = Product.id p ->
           (ProductRepositoryImpl.save
              p' (ProductRepositoryImpl.save p products).2).2
           = (ProductRepositoryImpl.save p' products).2).
Proof.
  intros products p. rewrite !save_state.
  split; [apply length_upsert|]. split.
  - now apply upsert_same_id.
  - intros p' Hid. rewrite ?save_state. now apply upsert_same_id.
Qed.

Lemma filter_other_ids_notin (id : string) (products : list Product.t) :
  id ∉ ids (List.filter (fun p => negb (String.eqb (Product.id p) id))
                        products).
Proof.
  unfold ids. intros Hin. apply list_elem_of_fmap in Hin as (q & Hq & Hin).
  apply list_elem_of_In, filter_In in Hin as [_ Hkeep].
  apply negb_true_iff, String.eqb_neq in Hkeep. congruence.
Qed.

Lemma filter_other_ids_id (id : string) (products : list Product.t) :
  id ∉ ids products ->
  List.filter (fun p => negb (String.eqb (Product.id p) id)) products
  = products.
Proof.
  induction products as [|q rest IH]; cbn; [reflexivity|].
  rewrite not_elem_of_cons. intros [Hne Hrest].
  destruct (String.eqb (Product.id q) id) eqn:Hq; cbn.
  - apply String.eqb_eq in Hq. congruence.
  - now rewrite IH.
Qed.

Lemma find_filter_other_ids (id id' : string) (products : list Product.t) :
  id' <> id ->
  List.find (fun q => String.eqb (Product.id q) id')
            (List.filter (fun p => negb (String.eqb (Product.id p) id))
                         products)
  = List.find (fun q => String.eqb (Product.id q) id') products.
Proof.
  intros Hne. induction products as [|q rest IH]; cbn; [reflexivity|].
  destruct (String.eqb (Product.id q) id) eqn:Hq; cbn.
  - apply String.eqb_eq in Hq.
    destruct (String.eqb (Product.id q) id') eqn:Hq'; [|exact IH].
    apply String.eqb_eq in Hq'. congruence.
  - now rewrite IH.
Qed.

(** X4. [delete(id)] resolves and removes every product with the id, so
    the id is not held afterwards; the lookup of every other id is as it
    was; and deleting an id that is not held leaves the store as it is, so
    deleting twice is deleting once. *)
Theorem X4_delete_removes_one_id :
  forall (products : list Product.t) (id : string),
    (ProductRepositoryImpl.delete id products).1 = Normal (Resolved tt)
    /\ (id ∉ ids (ProductRepositoryImpl.delete id products).2)
    /\ (forall id' : string,
           id' <> id ->
           (ProductRepositoryImpl.findById
              id' (ProductRepositoryImpl.delete id products).2).1
           = (ProductRepositoryImpl.findById id' products).1)
    /\ (id ∉ ids products ->
        (ProductRepositoryImpl.delete id products).2 = products)
    /\ (ProductRepositoryImpl.delete
          id (ProductRepositoryImpl.delete id products).2).2
       = (ProductRepositoryImpl.delete id products).2.
Proof.
  intros products id. rewrite !delete_state.
  split; [reflexivity|]. split; [apply filter_other_ids_notin|].
  split; [|split].
  - intros id' Hne. rewrite !findById_returns. cbn [fst].
    now rewrite find_filter_other_ids.
  - apply filter_other_ids_id.
  - rewrite ?delete_state. apply filter_other_ids_id, filter_other_ids_notin.
Qed.

Lemma filter_upsert_new (p : Product.t) (products : list Product.t) :
  Product.id p ∉ ids products ->
  List.filter (fun q => negb (String.eqb (Product.id q) (Product.id p)))
              (upsert p products)
  = products.
Proof.
  induction products as [|q rest IH]; cbn.
  - intros _. now rewrite String.eqb_refl.
  - rewrite not_elem_of_cons. intros [Hne Hrest]. unfold same_id.
    destruct (String.eqb (Product.id q) (Product.id p)) eqn:Hq.
    + apply String.eqb_eq in Hq. congruence.
    + cbn. rewrite Hq. cbn. now rewrite IH.
Qed.

(** X5. Saving a product under an id that is not held and then deleting
    that id gives back the store as it was, product for product and in the
    same order. *)
Theorem X5_save_then_delete :
  forall (products : list Product.t) (p : Product.t),
    Product.id p ∉ ids products ->
    (ProductRepositoryImpl.delete
       (Product.id p) (ProductRepositoryImpl.save p products).2).2
    = products.
Proof.
  intros products p Hnew. rewrite save_state, delete_state.
  now apply filter_upsert_new.
Qed.

Lemma X5_save_then_delete_witness :
  (ProductRepositoryImpl.delete
     "2" (ProductRepositoryImpl.save gadget [testProduct]).2).2
  = [testProduct].
Proof.
  apply (X5_save_then_delete [testProduct] gadget).
  cbn. rewrite list_elem_of_singleton. discriminate.
Defined.

Lemma findByCategory_returns (category : string) (products : list Product.t) :
  ProductRepositoryImpl.findByCategory category products
  = (Normal (Resolved
               (List.filter
                  (fun p => String.eqb (Product.category p) category)
                  products)),
     products).
Proof. reflexivity. Qed.

Lemma upsert_elem (p : Product.t) (products : list Product.t) :
  p ∈ upsert p products.
Proof.
  induction products as [|q rest IH]; cbn.
  - apply list_elem_of_here.
  - destruct (same_id p q); [apply list_elem_of_here|].
    now apply list_elem_of_further.
Qed.

Lemma filter_sublist {A} (keep : A -> bool) (l : list A) :
  sublist (List.filter keep l) l.
Proof.
  induction l as [|x rest IH]; cbn; [constructor|].
  destruct (keep x); now constructor.
Qed.

(** X6. [findByCategory(c)] resolves, leaves the store alone, and returns
    the stored products of category [c], all of them and no other, in the
    order of the store.  After [save(p)] the products of the category of
    [p] include [p]; after [delete(id)] no product returned for any
    category has the id. *)
Theorem X6_findByCategory :
  forall (products : list Product.t) (c : string),
    (exists found : list Product.t,
        ProductRepositoryImpl.findByCategory c products
        = (Normal (Resolved found), products)
        /\ (forall q, q ∈ found <-> q ∈ products /\ Product.category q = c)
        /\ sublist found products)
    /\ (forall (p : Product.t) (found : list Product.t),
           (ProductRepositoryImpl.findByCategory
              (Product.category p)
              (ProductRepositoryImpl.save p products).2).1
           = Normal (Resolved found) ->
           p ∈ found)
    /\ (forall (id : string) (found : list Product.t),
           (ProductRepositoryImpl.findByCategory
              c (ProductRepositoryImpl.delete id products).2).1
           = Normal (Resolved found) ->
           forall q, q ∈ found -> Product.id q <> id).
Proof.
  intros products c. split; [|split].
  - eexists. split; [apply findByCategory_returns|]. split.
    + intros q. rewrite list_elem_of_In, filter_In, <- list_elem_of_In.
      now rewrite String.eqb_eq.
    + apply filter_sublist.
  - intros p found. rewrite save_state, findByCategory_returns. cbn [fst].
    intros [= <-]. apply list_elem_of_In, filter_In. split.
    + apply list_elem_of_In, upsert_elem.
    + apply String.eqb_refl.
  - intros id found. rewrite delete_state, findByCategory_returns. cbn [fst].
    intros [= <-] q Hq.
    apply list_elem_of_In, filter_In in Hq as [Hq _].
    apply filter_In in Hq as [_ Hkeep].
    now apply negb_true_iff, String.eqb_neq in Hkeep.
Qed.

(** ** GetProductByIdUseCase and ProductController *)

Lemma getProduct_execute {S : Type} (repo : ProductRepository.t S)
      (id : string) (s : S) :
  ProductController.getProduct
    {| ProductController.getProductByIdUseCase :=
         GetProductByIdUseCase.instance repo |} id s
  = GetProductByIdUseCase.execute repo id s.
Proof.
  unfold ProductController.getProduct, GetProductByIdUseCase.instance.
  cbn [ProductController.getProductByIdUseCase UseCase.execute].
  unfold GetProductByIdUseCase.execute, async, bind, await.
  destruct (ProductRepository.findById id s) as [[[[q|]|e]|e] s1];
    reflexivity.
Qed.

(** X7. Over any implementation of [ProductRepository], [execute(id)]
    makes one call, [findById(id)], and never throws: it returns a promise.
    The promise resolves to the product found; a [null] from the repository
    rejects it with [Error('Product not found')]; a failure of the
    repository rejects it with the reason of that failure.  The state is
    the one [findById] left.  [ProductController.getProduct(id)] is the same
    call, with the same result. *)
Theorem X7_getProductById_not_found :
  forall (S : Type) (repo : ProductRepository.t S) (id : string) (s : S),
    GetProductByIdUseCase.execute repo id s
    = match settle (ProductRepository.findById id s) with
      | (Resolved (Some product), s') => (Normal (Resolved product), s')
      | (Resolved None, s') =>
          (Normal (Rejected (Error "Product not found")), s')
      | (Rejected reason, s') => (Normal (Rejected reason), s')
      end
    /\ ProductController.getProduct
         {| ProductController.getProductByIdUseCase :=
              GetProductByIdUseCase.instance repo |} id s
       = GetProductByIdUseCase.execute repo id s.
Proof.
  intros S repo id s. split; [|apply getProduct_execute].
  unfold GetProductByIdUseCase.execute, async, bind, await.
  destruct (ProductRepository.findById id s) as [[[[q|]|e]|e] s1];
    reflexivity.
Qed.

Lemma productController_returns (id : string) (products : list Product.t) :
  ProductController.getProduct productController id products
  = (match List.find (fun p => String.eqb (Product.id p) id) products with
     | Some q => Normal (Resolved q)
     | None => Normal (Rejected (Error "Product not found"))
     end, products).
Proof.
  unfold productController. rewrite getProduct_execute.
  unfold GetProductByIdUseCase.execute, async, bind, await.
  cbn [ProductRepository.findById productRepositoryImpl].
  rewrite findById_returns.
  destruct (List.find _ products); reflexivity.
Qed.

(** X8. Through the controller, the use case and [ProductRepositoryImpl]:
    [getProduct(id)] never throws and leaves the store alone; its promise
    is rejected exactly when no stored product has the id, and then with
    [Error('Product not found')]; otherwise it resolves to a stored product
    with that id. *)
Theorem X8_getProduct_end_to_end :
  forall (products : list Product.t) (id : string),
  exists promise : Promise Product.t,
    ProductController.getProduct productController id products
    = (Normal promise, products)
    /\ (promise = Rejected (Error "Product not found") <-> id ∉ ids products)
    /\ (forall reason, promise = Rejected reason ->
                       reason = Error "Product not found")
    /\ (forall q, promise = Resolved q -> q ∈ products /\ Product.id q = id).
Proof.
  intros products id. rewrite productController_returns.
  destruct (List.find _ products) as [q|] eqn:Hfind.
  - eexists. split; [reflexivity|]. split; [|split].
    + split; [discriminate|]. intros Hnotin.
      apply find_id_None in Hnotin. congruence.
    + discriminate.
    + intros q' [= <-]. now apply find_id_Some.
  - eexists. split; [reflexivity|]. split; [|split].
    + split; [|reflexivity]. intros _. now apply find_id_None.
    + now intros reason [= <-].
    + discriminate.
Qed.

(** X9. What [getProduct] sees of the writes: after [save(p)],
    [getProduct(p.id)] resolves to [p]; after [delete(id)],
    [getProduct(id)] is rejected with [Error('Product not found')]. *)
Theorem X9_getProduct_after_write :
  forall (products : list Product.t),
    (forall p : Product.t,
        (ProductController.getProduct
           productController (Product.id p)
           (ProductRepositoryImpl.save p products).2).1
        = Normal (Resolved p))
    /\ (forall id : string,
           (ProductController.getProduct
              productController id
              (ProductRepositoryImpl.delete id products).2).1
           = Normal (Rejected (Error "Product not found"))).
Proof.
  intros products. split.
  - intros p. rewrite save_state, productController_returns.
    now rewrite find_upsert.
  - intros id. rewrite delete_state, productController_returns.
    pose proof (filter_other_ids_notin id products) as Hnotin.
    apply find_id_None in Hnotin. now rewrite Hnotin.
Qed.

(** ** Product.applyDiscount at the edges of its range *)

Lemma mul_nan_r (x : float) : (x * nan)%float = nan.
Proof.
  apply Prim2SF_inj. rewrite mul_spec.
  change (Prim2SF nan) with S754_nan.
  destruct (Prim2SF x); reflexivity.
Qed.

Lemma is_finite_SF (x : float) :
  is_finite x = true ->
  (exists s, Prim2SF x = S754_zero s)
  \/ (exists s m e, Prim2SF x = S754_finite s m e).
Proof.
  unfold is_finite, is_nan, is_infinity.
  rewrite negb_true_iff, orb_false_iff, negb_false_iff.
  rewrite !FloatAxioms.eqb_spec, abs_spec.
  change (Prim2SF infinity) with (S754_infinity false).
  destruct (Prim2SF x) as [s|s| |s m e]; cbn.
  - intros _. left. now exists s.
  - intros [_ H]. discriminate.
  - intros [H _]. discriminate.
  - intros _. right. now exists s, m, e.
Qed.

Lemma mul_zero_r (x : float) :
  is_finite x = true -> is_zero (x * 0)%float = true.
Proof.
  intros Hfin. unfold is_zero. rewrite FloatAxioms.eqb_spec, mul_spec.
  change (Prim2SF zero) with (S754_zero false).
  change (Prim2SF 0) with (S754_zero false).
  destruct (is_finite_SF x Hfin) as [[s ->]|(s & m & e & ->)]; reflexivity.
Qed.

(** X10. Not-a-number passes the range check of [applyDiscount]: for every
    product the call returns, and the price of the product it returns is
    not a number. *)
Theorem X10_applyDiscount_nan :
  forall (heap : list Product.t) (this : nat) (p : Product.t),
    heap !! this = Some p ->
    exists result : nat,
      (Product.applyDiscount this nan heap).1 = Normal result
      /\ (Product.applyDiscount this nan heap).2 !! result
         = Some {| Product.id := Product.id p;
                   Product.name := Product.name p;
                   Product.price := nan;
                   Product.category := Product.category p |}.
Proof.
  intros heap this p Hp.
  unfold Product.applyDiscount, Product.deref, bind. rewrite Hp.
  change ((nan <? 0)%float || (100 <? nan)%float) with false.
  cbv iota. unfold Product.new. cbn [fst snd].
  exists (length heap). split; [reflexivity|].
  rewrite lookup_app_r by lia.
  replace (length heap - length heap)%nat with 0%nat by lia.
  cbn. change (1 - nan / 100)%float with nan. now rewrite mul_nan_r.
Qed.

Lemma X10_applyDiscount_nan_witness :
  exists result : nat,
    (Product.applyDiscount 0 nan [testProduct]).1 = Normal result.
Proof.
  destruct (X10_applyDiscount_nan [testProduct] 0%nat testProduct eq_refl)
    as (result & Hresult & _).
  now exists result.
Defined.

(** X11. A discount of 100 on a product with a finite price returns a
    product whose price is zero. *)
Theorem X11_applyDiscount_100 :
  forall (heap : list Product.t) (this : nat) (p : Product.t),
    heap !! this = Some p ->
    is_finite (Product.price p) = true ->
    exists (result : nat) (q : Product.t),
      (Product.applyDiscount this 100 heap).1 = Normal result
      /\ (Product.applyDiscount this 100 heap).2 !! result = Some q
      /\ is_zero (Product.price q) = true
      /\ Product.id q = Product.id p.
Proof.
  intros heap this p Hp Hfin.
  unfold Product.applyDiscount, Product.deref, bind. rewrite Hp.
  change ((100 <? 0)%float || (100 <? 100)%float) with false.
  cbv iota. unfold Product.new. cbn [fst snd].
  exists (length heap). eexists. split; [reflexivity|]. split.
  - rewrite lookup_app_r by lia.
    replace (length heap - length heap)%nat with 0%nat by lia.
    reflexivity.
  - cbn. change (1 - 100 / 100)%float with 0%float.
    split; [now apply mul_zero_r|reflexivity].
Qed.

Lemma X11_applyDiscount_100_witness :
  exists (result : nat) (q : Product.t),
    (Product.applyDiscount 0 100 [testProduct]).2 !! result = Some q
    /\ is_zero (Product.price q) = true.
Proof.
  destruct (X11_applyDiscount_100 [testProduct] 0%nat testProduct
                                  eq_refl eq_refl)
    as (result & q & _ & Hq & Hzero & _).
  now exists result, q.
Defined.

(** ** User.updateName *)

Lemma trimStart_units_nil (units : list ascii) :
  trimStart_units units = [] <-> forallb isWhiteSpace units = true.
Proof.
  induction units as [|c rest IH]; cbn; [tauto|].
  destruct (isWhiteSpace c); cbn; [exact IH|].
  split; discriminate.
Qed.

Lemma trimStart_units_head (units : list ascii) (c : ascii)
      (rest : list ascii) :
  trimStart_units units = c :: rest -> isWhiteSpace c = false.
Proof.
  induction units as [|d tail IH]; cbn; [discriminate|].
  destruct (isWhiteSpace d) eqn:Hd; [exact IH|].
  now intros [= <- _].
Qed.

Lemma forallb_rev {A} (f : A -> bool) (l : list A) :
  forallb f (List.rev l) = forallb f l.
Proof.
  induction l as [|x rest IH]; cbn; [reflexivity|].
  rewrite forallb_app, IH. cbn. rewrite andb_true_r. apply andb_comm.
Qed.

Lemma trimEnd_units_nil (units : list ascii) :
  trimEnd_units units = [] <-> forallb isWhiteSpace units = true.
Proof.
  unfold trimEnd_units. rewrite <- (forallb_rev isWhiteSpace units).
  rewrite <- trimStart_units_nil.
  split; intros H; [|now rewrite H].
  apply (f_equal (@List.rev ascii)) in H. now rewrite rev_involutive in H.
Qed.

Lemma string_of_list_ascii_empty (units : list ascii) :
  String.length (string_of_list_ascii units) = 0%nat <-> units = [].
Proof. destruct units; cbn; split; congruence. Qed.

Lemma trim_empty (s : string) :
  (String.length (trim s) =? 0)%nat = is_blank s.
Proof.
  unfold trim, is_blank. apply eq_true_iff_eq.
  rewrite Nat.eqb_eq, string_of_list_ascii_empty, trimEnd_units_nil.
  destruct (trimStart_units (list_ascii_of_string s)) as [|c rest] eqn:Hstart.
  - apply trimStart_units_nil in Hstart. rewrite Hstart. cbn. tauto.
  - pose proof (trimStart_units_head _ _ _ Hstart) as Hc.
    cbn [forallb]. rewrite Hc. cbn. split; [discriminate|].
    intros Hall. apply trimStart_units_nil in Hall. congruence.
Qed.

Lemma truthy_blank (s : string) : truthy s = false -> is_blank s = true.
Proof. intros H. apply truthy_false in H. now subst. Qed.

(** X12. [updateName(newName)] throws exactly when [newName] is blank
    (empty, or made of white space and line terminators only), and what it
    throws is [Error('Name cannot be empty')].  Otherwise it returns a user
    with the id, the email and the creation date of this one, and with
    [newName] as its name: the name as given, not the trimmed one. *)
Theorem X12_updateName :
  forall (u : User.t) (newName : string),
    User.updateName u newName
    = if is_blank newName
      then Throw (Error "Name cannot be empty")
      else Normal {| User.id := User.id u;
                     User.email := User.email u;
                     User.name := newName;
                     User.createdAt := User.createdAt u |}.
Proof.
  intros u newName. unfold User.updateName. rewrite trim_empty.
  destruct (truthy newName) eqn:Htruthy; cbn [negb orb].
  - destruct (is_blank newName); reflexivity.
  - apply truthy_blank in Htruthy. now rewrite Htruthy.
Qed.

(** A name with spaces around it is kept with them. *)
Example updateName_padded :
  User.updateName alice "  Alice B.  "
  = Normal {| User.id := "1"; User.email := "alice@example.com";
              User.name := "  Alice B.  "; User.createdAt := 0%Z |}.
Proof. reflexivity. Qed.

Example updateName_tab_newline :
  User.updateName alice (String "009" (String "010" " "))
  = Throw (Error "Name cannot be empty").
Proof. reflexivity. Qed.

Lemma is_blank_empty_iff (s : string) : is_blank s = false -> s <> "".
Proof. intros H ->. discriminate. Qed.

(** X13. A user returned by [updateName] has a name that is not empty, so
    [isValid()] holds of it exactly when the email, which is unchanged,
    contains ['@'].  Renaming therefore keeps a valid user valid, and it
    makes valid a user that was invalid only for an empty name. *)
Theorem X13_updateName_keeps_valid :
  forall (u u' : User.t) (newName : string),
    User.updateName u newName = Normal u' ->
    User.name u' <> ""
    /\ User.email u' = User.email u
    /\ (User.isValid u' = true <-> contains_at (User.email u))
    /\ (User.isValid u = true -> User.isValid u' = true).
Proof.
  intros u u' newName. unfold User.updateName. rewrite trim_empty.
  destruct (is_blank newName) eqn:Hblank;
    [rewrite orb_true_r; discriminate|].
  rewrite orb_false_r.
  destruct (truthy newName) eqn:Htruthy;
    [|apply truthy_blank in Htruthy; congruence].
  cbn [negb]. unfold User.new. cbn [default].
  intros [= <-]. apply is_blank_empty_iff in Hblank.
  split; [exact Hblank|]. split; [reflexivity|].
  rewrite !isValid_iff. cbn. tauto.
Qed.

Lemma X13_updateName_keeps_valid_witness :
  User.updateName alice "Alice B." <> Throw (Error "Name cannot be empty")
  /\ forall u', User.updateName alice "Alice B." = Normal u' ->
                User.isValid u' = true.
Proof.
  split; [discriminate|].
  intros u' H.
  destruct (X13_updateName_keeps_valid alice u' "Alice B." H)
    as (_ & _ & _ & Hvalid).
  apply Hvalid. reflexivity.
Defined.

(** ** CreateUserUseCase: when it succeeds, why it fails, and twice in a row *)

Lemma execute_cases {S : Type} (repo : UserRepository.t S)
      (env : Environment) (request : CreateUserUseCase.CreateUserRequest)
      (s : S) :
  CreateUserUseCase.execute repo env request s
  = if negb (truthy (CreateUserUseCase.email request))
       || negb (truthy (CreateUserUseCase.name request))
    then (Normal (Rejected (Error "Email and name are required")), s)
    else
      match settle (UserRepository.findByEmail
                      (CreateUserUseCase.email request) s) with
      | (Rejected e, s1) => (Normal (Rejected e), s1)
      | (Resolved (Some _), s1) =>
          (Normal (Rejected (Error "User with this email already exists")),
           s1)
      | (Resolved None, s1) =>
          if negb (User.isValid (built_user env request))
          then (Normal (Rejected (Error "Invalid user data")), s1)
          else
            match settle (UserRepository.save (built_user env request) s1)
            with
            | (Resolved _, s2) =>
                (Normal (Resolved (built_user env request)), s2)
            | (Rejected e, s2) => (Normal (Rejected e), s2)
            end
      end.
Proof.
  rewrite observed_run_transparent, observed_run_cases. cbv zeta.
  destruct (_ || _); [reflexivity|].
  destruct (settle _) as [[[existing|]|e] s1]; try reflexivity.
  destruct (negb _); [reflexivity|].
  destruct (settle _) as [[[]|e] s2]; reflexivity.
Qed.

Lemma settle_resolved {S A : Type} (r : Completion (Promise A) * S)
      (a : A) (s : S) :
  settle r = (Resolved a, s) <-> r = (Normal (Resolved a), s).
Proof.
  destruct r as [[[a'|e]|e] s']; cbn; split; congruence.
Qed.

(** X14. [execute] resolves in one case only, and then to the user it
    built: the email and the name of the request are not empty, the lookup
    of the email resolved to [null], the email contains ['@'], and [save]
    of the built user resolved.  The state it ends in is the one [save]
    left. *)
Theorem X14_create_user_succeeds_iff :
  forall (S : Type) (repo : UserRepository.t S) (env : Environment)
         (request : CreateUserUseCase.CreateUserRequest) (s s2 : S)
         (user : User.t),
    CreateUserUseCase.execute repo env request s
    = (Normal (Resolved user), s2)
    <-> (CreateUserUseCase.email request <> ""
         /\ CreateUserUseCase.name request <> ""
         /\ contains_at (CreateUserUseCase.email request)
         /\ user = built_user env request
         /\ exists s1 : S,
             UserRepository.findByEmail (CreateUserUseCase.email request) s
             = (Normal (Resolved None), s1)
             /\ UserRepository.save user s1 = (Normal (Resolved tt), s2)).
Proof.
  intros S repo env request s s2 user. rewrite execute_cases.
  destruct (negb (truthy (CreateUserUseCase.email request))
            || negb (truthy (CreateUserUseCase.name request))) eqn:Hguard.
  { apply request_guard in Hguard. split; [discriminate|].
    intros (He & Hn & _). tauto. }
  apply orb_false_iff in Hguard as [He Hn].
  apply negb_false_iff, truthy_true in He, Hn.
  destruct (settle (UserRepository.findByEmail _ s))
    as [[[existing|]|e] s1] eqn:Hfind.
  - split; [discriminate|]. intros (_ & _ & _ & _ & s1' & Hfind' & _).
    apply settle_resolved in Hfind'. congruence.
  - apply settle_resolved in Hfind.
    destruct (negb (User.isValid (built_user env request))) eqn:Hvalid.
    + apply negb_true_iff in Hvalid. split; [discriminate|].
      intros (_ & _ & Hat & _). exfalso.
      assert (User.isValid (built_user env request) = true) as Hv
          by (apply isValid_iff; cbn; auto).
      congruence.
    + apply negb_false_iff, isValid_iff in Hvalid as [Hat _]. cbn in Hat.
      destruct (settle (UserRepository.save (built_user env request) s1))
        as [[[]|e] s2'] eqn:Hsave.
      * apply settle_resolved in Hsave. split.
        -- intros [= <- <-]. repeat split; auto. exists s1. auto.
        -- intros (_ & _ & _ & -> & s1' & Hfind' & Hsave').
           rewrite Hfind in Hfind'. injection Hfind' as <-.
           rewrite Hsave in Hsave'. now injection Hsave' as <-.
      * split; [discriminate|].
        intros (_ & _ & _ & -> & s1' & Hfind' & Hsave').
        rewrite Hfind in Hfind'. injection Hfind' as <-.
        apply settle_resolved in Hsave'. congruence.
  - split; [discriminate|]. intros (_ & _ & _ & _ & s1' & Hfind' & _).
    apply settle_resolved in Hfind'. congruence.
Qed.

(** X15. When the promise of [execute] is rejected, the reason is one of
    the three errors of [execute] itself, thrown under its own condition,
    or it is the reason with which the lookup failed, or the reason with
    which [save] of the built user failed.  Nothing else rejects it. *)
Theorem X15_create_user_rejection_reasons :
  forall (S : Type) (repo : UserRepository.t S) (env : Environment)
         (request : CreateUserUseCase.CreateUserRequest) (s : S)
         (reason : JSError),
    (CreateUserUseCase.execute repo env request s).1
    = Normal (Rejected reason) ->
    execute_throws repo env request s reason
    \/ (exists s1 : S,
           settle (UserRepository.findByEmail
                     (CreateUserUseCase.email request) s)
           = (Rejected reason, s1))
    \/ (exists s1 s2 : S,
           UserRepository.findByEmail (CreateUserUseCase.email request) s
           = (Normal (Resolved None), s1)
           /\ settle (UserRepository.save (built_user env request) s1)
              = (Rejected reason, s2)).
Proof.
  intros S repo env request s reason. rewrite execute_cases.
  destruct (negb (truthy (CreateUserUseCase.email request))
            || negb (truthy (CreateUserUseCase.name request))) eqn:Hguard.
  { intros [= <-]. left. apply throws_required. now apply request_guard. }
  apply orb_false_iff in Hguard as [He Hn].
  apply negb_false_iff, truthy_true in He, Hn.
  destruct (settle (UserRepository.findByEmail _ s))
    as [[[existing|]|e] s1] eqn:Hfind.
  - apply settle_resolved in Hfind. intros [= <-]. left.
    now apply (throws_exists repo env request s existing s1).
  - apply settle_resolved in Hfind.
    destruct (negb (User.isValid (built_user env request))) eqn:Hvalid.
    + apply negb_true_iff in Hvalid. intros [= <-]. left.
      now apply (throws_invalid repo env request s s1).
    + destruct (settle (UserRepository.save (built_user env request) s1))
        as [[[]|e] s2] eqn:Hsave; [discriminate|].
      cbn. intros [= <-]. right. right. exists s1, s2. auto.
  - cbn. intros [= <-]. right. left. now exists s1.
Qed.

Lemma X15_create_user_rejection_reasons_witness :
  execute_throws InMemoryUserRepository test_environment request_without_at
                 [alice] (Error "Invalid user data")
  \/ (exists s1 : list User.t,
         settle (@UserRepository.findByEmail _ InMemoryUserRepository
                   (CreateUserUseCase.email request_without_at) [alice])
         = (Rejected (Error "Invalid user data"), s1))
  \/ (exists s1 s2 : list User.t,
         @UserRepository.findByEmail _ InMemoryUserRepository
           (CreateUserUseCase.email request_without_at) [alice]
         = (Normal (Resolved None), s1)
         /\ settle (@UserRepository.save _ InMemoryUserRepository
                      (built_user test_environment request_without_at) s1)
            = (Rejected (Error "Invalid user data"), s2)).
Proof.
  apply (X15_create_user_rejection_reasons
           (list User.t) InMemoryUserRepository test_environment
           request_without_at [alice] (Error "Invalid user data")).
  reflexivity.
Defined.

Lemma execute_resolved_saved {S : Type} (repo : UserRepository.t S)
      (env : Environment) (request : CreateUserUseCase.CreateUserRequest)
      (s s2 : S) (user : User.t) :
  CreateUserUseCase.execute repo env request s
  = (Normal (Resolved user), s2) ->
  CreateUserUseCase.email request <> ""
  /\ user = built_user env request
  /\ exists s1 : S, UserRepository.save user s1 = (Normal (Resolved tt), s2).
Proof.
  rewrite execute_cases.
  destruct (negb (truthy (CreateUserUseCase.email request))
            || negb (truthy (CreateUserUseCase.name request))) eqn:Hguard;
    [discriminate|].
  apply orb_false_iff in Hguard as [He _].
  apply negb_false_iff, truthy_true in He.
  destruct (settle (UserRepository.findByEmail _ s))
    as [[[existing|]|e] s1]; try discriminate.
  destruct (negb _); [discriminate|].
  destruct (settle (UserRepository.save (built_user env request) s1))
    as [[[]|e] s2'] eqn:Hsave; [|discriminate].
  apply settle_resolved in Hsave. intros [= <- <-].
  split; [assumption|]. split; [reflexivity|]. now exists s1.
Qed.

(** X16. Over a repository that finds what it saved, a user created by
    [execute] blocks its email: an [execute] for a request with the same
    email, made in the state the first one left, is rejected with
    [Error('User with this email already exists')], whatever the name it
    asks for, as long as there is one. *)
Theorem X16_create_user_twice :
  forall (S : Type) (repo : UserRepository.t S),
    finds_what_it_saved repo ->
    forall (env env' : Environment)
           (request request' : CreateUserUseCase.CreateUserRequest)
           (s s1 : S) (user : User.t),
      CreateUserUseCase.execute repo env request s
      = (Normal (Resolved user), s1) ->
      CreateUserUseCase.email request' = CreateUserUseCase.email request ->
      CreateUserUseCase.name request' <> "" ->
      (CreateUserUseCase.execute repo env' request' s1).1
      = Normal (Rejected (Error "User with this email already exists")).
Proof.
  intros S repo Hcontract env env' request request' s s1 user Hrun Hemail Hname.
  apply execute_resolved_saved in Hrun as (He & -> & s0 & Hsave).
  destruct (Hcontract _ _ _ Hsave) as (found & s2 & Hfound).
  cbn [User.email built_user] in Hfound.
  rewrite execute_cases, Hemail.
  rewrite <- Hemail at 1.
  rewrite (request_guard_passed request'); [|congruence|assumption].
  rewrite Hfound. reflexivity.
Qed.

Lemma find_app_last {A} (f : A -> bool) (l : list A) (x : A) :
  f x = true -> exists y, List.find f (l ++ [x]) = Some y.
Proof.
  intros Hx. induction l as [|z rest IH]; cbn.
  - rewrite Hx. now exists x.
  - destruct (f z); [now exists z|exact IH].
Qed.

Lemma InMemoryUserRepository_finds_what_it_saved :
  finds_what_it_saved InMemoryUserRepository.
Proof.
  intros u s s'. cbn. unfold async. intros [= <-].
  destruct (find_app_last (fun v => String.eqb (User.email v) (User.email u))
                          s u (String.eqb_refl _)) as [found Hfound].
  exists found, (s ++ [u]). now rewrite Hfound.
Qed.

Lemma X16_create_user_twice_witness :
  (CreateUserUseCase.execute
     InMemoryUserRepository test_environment
     {| CreateUserUseCase.email := "bob@example.com";
        CreateUserUseCase.name := "Robert" |}
     [alice; user_bob]).1
  = Normal (Rejected (Error "User with this email already exists")).
Proof.
  apply (X16_create_user_twice
           (list User.t) InMemoryUserRepository
           InMemoryUserRepository_finds_what_it_saved
           test_environment test_environment request_bob
           {| CreateUserUseCase.email := "bob@example.com";
              CreateUserUseCase.name := "Robert" |}
           [alice] [alice; user_bob] user_bob).
  - vm_compute. reflexivity.
  - reflexivity.
  - discriminate.
Defined.

(** ** CreateUserUseCase.generateId *)

Lemma string_app_inj (a b c d : string) :
  String.length a = String.length b ->
  (a ++ c)%string = (b ++ d)%string -> a = b /\ c = d.
Proof.
  revert b. induction a as [|x a IH]; intros [|y b]; cbn; try discriminate.
  - auto.
  - intros [= Hlen] [= -> Happ]. destruct (IH b Hlen Happ) as [-> ->]. auto.
Qed.

Lemma string_length_app (a b : string) :
  String.length (a ++ b)%string = (String.length a + String.length b)%nat.
Proof. induction a as [|x a IH]; simpl; [reflexivity|now f_equal]. Qed.

Lemma length_substring (start len : nat) (s : string) :
  String.length (String.substring start len s)
  = Nat.min len (String.length s - start).
Proof.
  revert start len. induction s as [|c rest IH]; intros [|start] [|len];
    cbn; try reflexivity.
  - now rewrite (IH 0%nat len), Nat.sub_0_r.
  - apply (IH start 0%nat).
  - apply (IH start (S len)).
Qed.

(** X17. An id made by [generateId] is the decimal form of [Date.now()]
    followed by the characters 3 to 11 of [Math.random().toString(36)], as
    many of them as there are: character [i] of the random part is
    character [i + 2] of that string, and the part has nine characters, or
    fewer when the string ends earlier, none when it has no third
    character (a [Math.random()] of 0 gives ["0"]).  Two ids made at
    different instants differ whenever their random parts have the same
    length. *)
Theorem X17_generateId_shape :
  forall env : Environment,
    (exists random_part : string,
        CreateUserUseCase.generateId env
        = (pretty (Date_now env) ++ random_part)%string
        /\ String.length random_part
           = Nat.min 9 (String.length (Math_random_toString36 env) - 2)
        /\ (forall i : nat,
               (i < 9)%nat ->
               String.get i random_part
               = String.get (i + 2) (Math_random_toString36 env))
        /\ (forall i : nat, (9 <= i)%nat -> String.get i random_part = None))
    /\ (forall env' : Environment,
           Date_now env' <> Date_now env ->
           Nat.min 9 (String.length (Math_random_toString36 env') - 2)
           = Nat.min 9 (String.length (Math_random_toString36 env) - 2) ->
           CreateUserUseCase.generateId env'
           <> CreateUserUseCase.generateId env).
Proof.
  intros env. split.
  - exists (substr (Math_random_toString36 env) 2 9). unfold substr.
    split; [reflexivity|]. split; [apply length_substring|]. split.
    + intros i Hi. now apply substring_correct1.
    + intros i Hi. now apply substring_correct2.
  - intros env' Hnow Hlen Heq. unfold CreateUserUseCase.generateId in Heq.
    unfold substr in Heq.
    assert (String.length (pretty (Date_now env'))
            = String.length (pretty (Date_now env))) as Hdigits.
    { apply (f_equal String.length) in Heq.
      rewrite !string_length_app, !length_substring in Heq. lia. }
    apply string_app_inj in Heq as [Hpretty _]; [|exact Hdigits].
    apply Hnow. now apply (inj pretty).
Qed.

Example generateId_random_zero :
  CreateUserUseCase.generateId
    {| Date_now := 1700000000000%Z; Math_random_toString36 := "0";
       new_Date := 1700000000000%Z |}
  = "1700000000000".
Proof. vm_compute. reflexivity. Qed.

(** ** StringUtils.truncate *)

Lemma length_substring_0 (n : nat) (s : string) :
  String.length (String.substring 0 n s) = Nat.min n (String.length s).
Proof.
  revert n. induction s as [|c rest IH]; intros [|n]; cbn; try reflexivity.
  now rewrite IH.
Qed.

Lemma String_substring_0 (s : string) (end_ : Z) :
  String_substring s 0 end_
  = String.substring
      0 (Z.to_nat (Z.min (Z.max end_ 0) (Z.of_nat (String.length s)))) s.
Proof.
  unfold String_substring.
  assert (0 <= Z.of_nat (String.length s))%Z as Hlen by lia.
  replace (Z.min (Z.max 0 0) (Z.of_nat (String.length s))) with 0%Z by lia.
  set (b := Z.min (Z.max end_ 0) (Z.of_nat (String.length s))).
  replace (Z.min 0 b) with 0%Z by lia.
  replace (Z.max 0 b - 0)%Z with b by lia.
  reflexivity.
Qed.

(** X18. [truncate(text, maxLength)], for an integer [maxLength]: a text
    that fits is returned as it is.  A longer text is cut to its first
    [maxLength - 3] characters followed by ['...'], which makes exactly
    [maxLength] characters when [maxLength] is at least 3.  When
    [maxLength] is below 3, negative included, the result is ['...']:
    three characters, more than was asked for. *)
Theorem X18_truncate :
  forall (text : string) (maxLength : Z),
    let result := StringUtils.truncate text maxLength in
    let len := Z.of_nat (String.length text) in
    ((len <= maxLength)%Z -> result = text)
    /\ ((maxLength < len)%Z -> (3 <= maxLength)%Z ->
        result
        = (String.substring 0 (Z.to_nat (maxLength - 3)) text ++ "...")%string
        /\ Z.of_nat (String.length result) = maxLength)
    /\ ((maxLength < len)%Z -> (maxLength < 3)%Z -> result = "...").
Proof.
  intros text maxLength result len. subst result len.
  unfold StringUtils.truncate. split; [|split].
  - intros Hfit. apply Z.leb_le in Hfit. now rewrite Hfit.
  - intros Hlong Hthree. apply Z.leb_gt in Hlong as Hcmp. rewrite Hcmp.
    rewrite String_substring_0.
    replace (Z.min (Z.max (maxLength - 3) 0)
                   (Z.of_nat (String.length text)))
      with (maxLength - 3)%Z by lia.
    split; [reflexivity|].
    rewrite string_length_app, length_substring_0. cbn [String.length]. lia.
  - intros Hlong Hsmall. apply Z.leb_gt in Hlong as Hcmp. rewrite Hcmp.
    rewrite String_substring_0.
    replace (Z.min (Z.max (maxLength - 3) 0)
                   (Z.of_nat (String.length text)))
      with 0%Z by lia.
    destruct text; reflexivity.
Qed.

Example truncate_hello_world :
  StringUtils.truncate "Hello World" 8 = "Hello...".
Proof. reflexivity. Qed.

Example truncate_below_three :
  StringUtils.truncate "Hello" 2 = "...".
Proof. reflexivity. Qed.

(** ** ArrayUtils.chunk *)

Section Chunk.

Context {A : Type} (array : list A) (size : Z).

Lemma chunk_loop_more_fuel (fuel fuel' : nat) (i : Z)
      (chunks result : list (list A)) :
  (fuel <= fuel')%nat ->
  ArrayUtils.chunk_loop fuel array size i chunks = Some result ->
  ArrayUtils.chunk_loop fuel' array size i chunks = Some result.
Proof.
  revert fuel' i chunks. induction fuel as [|fuel IH];
    intros fuel' i chunks Hle; cbn.
  - destruct (i <? Z.of_nat (length array))%Z eqn:Hi; [discriminate|].
    intros H. destruct fuel'; cbn; now rewrite Hi.
  - destruct (i <? Z.of_nat (length array))%Z eqn:Hi.
    + destruct fuel' as [|fuel']; [lia|]. cbn. rewrite Hi.
      apply IH. lia.
    + intros H. destruct fuel'; cbn; now rewrite Hi.
Qed.

Lemma Array_slice_step (i : Z) :
  (0 <= i < Z.of_nat (length array))%Z -> (1 <= size)%Z ->
  Array_slice array i (i + size)
  = take (Z.to_nat size) (drop (Z.to_nat i) array)
  /\ (1 <= length (Array_slice array i (i + size)) <= Z.to_nat size)%nat.
Proof.
  intros Hi Hsize. unfold Array_slice.
  destruct (i <? 0)%Z eqn:Hneg; [apply Z.ltb_lt in Hneg; lia|].
  destruct (i + size <? 0)%Z eqn:Hneg'; [apply Z.ltb_lt in Hneg'; lia|].
  replace (Z.min i (Z.of_nat (length array))) with i by lia.
  assert (length (drop (Z.to_nat i) array)
          = (length array - Z.to_nat i)%nat) as Hdrop
      by apply length_drop.
  destruct (Z.le_gt_cases (i + size) (Z.of_nat (length array))) as [Hin|Hout].
  - replace (Z.min (i + size) (Z.of_nat (length array)) - i)%Z
      with size by lia.
    split; [reflexivity|]. rewrite length_take. lia.
  - replace (Z.min (i + size) (Z.of_nat (length array)) - i)%Z
      with (Z.of_nat (length array) - i)%Z by lia.
    rewrite !take_ge by lia. split; [reflexivity|]. lia.
Qed.

Lemma chunk_loop_terminates (fuel : nat) (i : Z) (chunks : list (list A)) :
  (1 <= size)%Z -> (0 <= i)%Z ->
  (Z.of_nat (length array) - i <= Z.of_nat fuel)%Z ->
  exists rest : list (list A),
    ArrayUtils.chunk_loop fuel array size i chunks = Some (chunks ++ rest)
    /\ concat rest = drop (Z.to_nat i) array
    /\ Forall (fun c => (1 <= length c <= Z.to_nat size)%nat) rest.
Proof.
  intros Hsize. revert i chunks.
  induction fuel as [|fuel IH]; intros i chunks Hi Hfuel.
  - exists []. cbn.
    destruct (i <? Z.of_nat (length array))%Z eqn:Hlt;
      [apply Z.ltb_lt in Hlt; lia|].
    rewrite app_nil_r. split; [reflexivity|]. split; [|constructor].
    symmetry. apply drop_ge. lia.
  - cbn. destruct (i <? Z.of_nat (length array))%Z eqn:Hlt.
    + apply Z.ltb_lt in Hlt.
      destruct (IH (i + size)%Z
                   (chunks ++ [Array_slice array i (i + size)]))
        as (rest & Hloop & Hconcat & Hall); [lia|lia|].
      destruct (Array_slice_step i) as [Hslice Hlen]; [lia|lia|].
      exists (Array_slice array i (i + size) :: rest).
      split; [now rewrite Hloop, <- app_assoc|]. split.
      * cbn. rewrite Hconcat, Hslice.
        rewrite Z2Nat.inj_add by lia.
        rewrite <- (take_drop (Z.to_nat size) (drop (Z.to_nat i) array)) at 2.
        now rewrite drop_drop.
      * constructor; assumption.
    + apply Z.ltb_ge in Hlt. exists []. rewrite app_nil_r.
      split; [reflexivity|]. split; [|constructor].
      symmetry. apply drop_ge. lia.
Qed.

Lemma chunk_loop_diverges (fuel : nat) (i : Z) (chunks : list (list A)) :
  (size <= 0)%Z -> (i < Z.of_nat (length array))%Z ->
  ArrayUtils.chunk_loop fuel array size i chunks = None.
Proof.
  intros Hsize. revert i chunks.
  induction fuel as [|fuel IH]; intros i chunks Hi; cbn;
    apply Z.ltb_lt in Hi as Hlt; rewrite Hlt; [reflexivity|].
  apply IH. lia.
Qed.

End Chunk.

(** X19. [chunk(array, size)] for an integer [size] of at least 1: the
    loop ends, within as many iterations as the array has elements.  The
    chunks it returns, put end to end, are the array; none of them is
    empty and none is longer than [size].  The empty array gives no chunk. *)
Theorem X19_chunk_partitions :
  forall (A : Type) (array : list A) (size : Z),
    (1 <= size)%Z ->
    exists chunks : list (list A),
      (forall fuel : nat,
          (length array <= fuel)%nat ->
          ArrayUtils.chunk fuel array size = Some chunks)
      /\ concat chunks = array
      /\ Forall (fun c => (1 <= length c <= Z.to_nat size)%nat) chunks
      /\ (array = [] -> chunks = []).
Proof.
  intros A array size Hsize.
  destruct (chunk_loop_terminates array size (length array) 0 [] Hsize)
    as (chunks & Hloop & Hconcat & Hall); [lia|lia|].
  cbn in Hloop, Hconcat. exists chunks.
  split; [|split; [assumption|split; [assumption|]]].
  - intros fuel Hfuel. unfold ArrayUtils.chunk.
    now apply (chunk_loop_more_fuel array size (length array) fuel).
  - intros ->. destruct chunks as [|c rest]; [reflexivity|].
    apply Forall_cons in Hall as [Hc _]. cbn in Hconcat.
    destruct c; [cbn in Hc; lia|discriminate].
Qed.

Lemma X19_chunk_partitions_witness :
  exists chunks : list (list nat),
    ArrayUtils.chunk 5 [1; 2; 3; 4; 5]%nat 2 = Some chunks
    /\ concat chunks = [1; 2; 3; 4; 5]%nat.
Proof.
  destruct (X19_chunk_partitions nat [1; 2; 3; 4; 5]%nat 2)
    as (chunks & Hrun & Hconcat & _); [lia|].
  exists chunks. split; [apply Hrun; cbn; lia|exact Hconcat].
Defined.

Example chunk_five_by_two :
  ArrayUtils.chunk 5 [1; 2; 3; 4; 5]%nat 2 = Some [[1; 2]; [3; 4]; [5]]%nat.
Proof. reflexivity. Qed.

(** X20. [chunk(array, size)] for an integer [size] of 0 or less, on an
    array that is not empty: the loop never ends.  The index does not
    advance past the start, so whatever the number of iterations allowed,
    the loop is still running when they are used up. *)
Theorem X20_chunk_never_returns :
  forall (A : Type) (array : list A) (size : Z),
    (size <= 0)%Z ->
    array <> [] ->
    forall fuel : nat, ArrayUtils.chunk fuel array size = None.
Proof.
  intros A array size Hsize Hnonempty fuel. unfold ArrayUtils.chunk.
  apply chunk_loop_diverges; [assumption|].
  destruct array; [contradiction|cbn; lia].
Qed.

Lemma X20_chunk_never_returns_witness :
  ArrayUtils.chunk 1000 [1; 2; 3]%nat 0 = None.
Proof.
  apply (X20_chunk_never_returns nat [1; 2; 3]%nat 0);
    [lia|discriminate].
Defined.

(** ** ArrayUtils.unique *)

Section Unique.

Context {A : Type} `{EqDecision A}.

Lemma Set_add_fold_elem (acc array : list A) (x : A) :
  x ∈ foldl ArrayUtils.Set_add acc array <-> x ∈ acc \/ x ∈ array.
Proof.
  revert acc. induction array as [|y rest IH]; intros acc; cbn.
  - split; [auto|]. intros [H|H]; [assumption|inversion H].
  - rewrite IH, elem_of_cons. unfold ArrayUtils.Set_add.
    destruct (decide (y ∈ acc)) as [Hin|Hnotin].
    + split; [tauto|]. intros [H|[->|H]]; auto.
    + rewrite elem_of_app, list_elem_of_singleton. tauto.
Qed.

Lemma Set_add_fold_NoDup (acc array : list A) :
  NoDup acc -> NoDup (foldl ArrayUtils.Set_add acc array).
Proof.
  revert acc. induction array as [|y rest IH]; intros acc Hnd; cbn;
    [assumption|].
  apply IH. unfold ArrayUtils.Set_add.
  destruct (decide (y ∈ acc)) as [Hin|Hnotin]; [assumption|].
  apply NoDup_app. split; [assumption|]. split; [|apply NoDup_singleton].
  intros z Hz Hz'. apply list_elem_of_singleton in Hz'. now subst.
Qed.

Lemma Set_add_fold_fresh (acc array : list A) :
  NoDup (acc ++ array) -> foldl ArrayUtils.Set_add acc array = acc ++ array.
Proof.
  revert acc. induction array as [|y rest IH]; intros acc Hnd; cbn.
  - now rewrite app_nil_r.
  - unfold ArrayUtils.Set_add at 2.
    apply NoDup_app in Hnd as Hparts. destruct Hparts as (_ & Hdisjoint & _).
    destruct (decide (y ∈ acc)) as [Hin|Hnotin].
    + exfalso. apply (Hdisjoint y Hin). apply list_elem_of_here.
    + rewrite IH; [now rewrite <- app_assoc|].
      now rewrite <- app_assoc.
Qed.

Lemma Set_add_nil (x : A) : ArrayUtils.Set_add [] x = [x].
Proof.
  unfold ArrayUtils.Set_add. rewrite decide_False; [reflexivity|].
  intros H. inversion H.
Qed.

(** The fold from a set [acc] only looks at the elements that are not in
    [acc]. *)
Lemma Set_add_fold_filter (n : nat) :
  forall (acc array : list A),
    (length array <= n)%nat ->
    foldl ArrayUtils.Set_add acc array
    = acc ++ ArrayUtils.unique (filter (fun x => x ∉ acc) array).
Proof.
  unfold ArrayUtils.unique.
  induction n as [|n IH]; intros acc array Hlen.
  - destruct array; [cbn; now rewrite app_nil_r|cbn in Hlen; lia].
  - destruct array as [|y rest]; [cbn; now rewrite app_nil_r|].
    cbn in Hlen. cbn [foldl]. unfold ArrayUtils.Set_add at 2.
    destruct (decide (y ∈ acc)) as [Hin|Hnotin].
    + rewrite filter_cons_False by tauto. apply IH. lia.
    + rewrite filter_cons_True by assumption. cbn [foldl].
      rewrite Set_add_nil.
      rewrite (IH (acc ++ [y]) rest) by lia.
      rewrite (IH [y] (filter (fun x => x ∉ acc) rest)).
      2:{ pose proof (length_filter (fun x => x ∉ acc) rest). lia. }
      rewrite <- app_assoc. do 2 f_equal.
      rewrite list_filter_filter. f_equal.
      apply list_filter_iff. intros x.
      rewrite not_elem_of_app. tauto.
Qed.

End Unique.

(** X21. [unique(array)] keeps the first occurrence of every value and
    drops the later ones: the result starts with the first element and goes
    on with the unique values of the rest that differ from it.  So it holds
    the values of the array, each once, in the order of their first
    occurrence; an array without repetition is returned as it is, and
    [unique] of a result is that result. *)
Theorem X21_unique_first_occurrences :
  forall (A : Type) (EqA : EqDecision A) (array : list A),
    (forall x : A, x ∈ ArrayUtils.unique array <-> x ∈ array)
    /\ NoDup (ArrayUtils.unique array)
    /\ (forall (x : A) (rest : list A),
           array = x :: rest ->
           ArrayUtils.unique array
           = x :: ArrayUtils.unique (filter (fun y => y <> x) rest))
    /\ (NoDup array -> ArrayUtils.unique array = array)
    /\ ArrayUtils.unique (ArrayUtils.unique array) = ArrayUtils.unique array.
Proof.
  intros A EqA array. unfold ArrayUtils.unique at 1 2 3 5.
  split; [|split; [|split; [|split]]].
  - intros x. rewrite Set_add_fold_elem. split; [|auto].
    intros [H|H]; [inversion H|assumption].
  - apply Set_add_fold_NoDup. constructor.
  - intros x rest ->. cbn [foldl]. rewrite Set_add_nil.
    rewrite (Set_add_fold_filter (length rest) [x] rest) by lia.
    cbn [app]. do 2 f_equal. apply list_filter_iff. intros y.
    rewrite list_elem_of_singleton. tauto.
  - intros Hnd. now apply (Set_add_fold_fresh [] array).
  - apply (Set_add_fold_fresh [] (ArrayUtils.unique array)).
    apply Set_add_fold_NoDup. constructor.
Qed.

Example unique_strings :
  ArrayUtils.unique ["b"; "a"; "b"; "c"; "a"] = ["b"; "a"; "c"].
Proof. reflexivity. Qed.
